(** * Beeminder Timer: the countdown, its persistence and its posts

    A model of the [App] component of the timer, in its latest revision
    (the one that persists the timer state; the two earlier revisions of
    [App.tsx] have a fixed thirty minutes, or no persistence): the React
    state hooks, the event handlers, the effects that drive the countdown
    and the automatic post, [localStorage], and the requests sent to the
    Beeminder API.

    Conventions.
    - The five values of [Status] are the strings ["idle"], ["running"],
      ["posting"], ["finished"] and ["error"].
    - Times are integers: [Date.now()] in milliseconds, [remaining] and
      [selectedDuration] in seconds (the page only ever produces
      [minutes * 60]).  The quotient [x / 60] that is posted is kept as an
      exact rational.
    - [localStorage] maps a key to the JSON text stored under it; the
      model keeps the value that text denotes ([JSON.parse] of
      [JSON.stringify v] is [v] for these records of strings, numbers,
      booleans and [null]).
    - A handler reads the state of the render it was created in, and the
      [set...] calls of a handler, or of what an [async] function does
      after its [await], are applied together.  After them the effects
      whose dependencies changed run, for as many rounds as they change
      dependencies themselves ([settle]).
    - The part of an [async] function after [await fetch] is a
      continuation, run when the response arrives ([Respond]); in between
      anything else can happen.
    - The interval of the countdown may tick at any time while it is
      installed ([Tick]); the clock advances by [Elapse].
    - Left out: the tab title, the sound, notifications and the YouTube
      title lookup, which read the state and write none of the fields
      below. *)

From stdpp Require Import gmap strings list pretty.
From Stdlib Require Import Ascii QArith.

Local Open Scope Z_scope.

(** ** Data model *)

Inductive Status := Idle | Running | Posting | Finished | Error.

#[global] Instance Status_eq_dec : EqDecision Status.
Proof. solve_decision. Defined.

Record BeeminderGoal := mkGoal {
  slug : string;
  title : option string;
  gunits : option string }.

Record StoredSettings := mkStoredSettings {
  ss_username : string;
  ss_authToken : string;
  ss_goalSlug : string }.

Record StoredGoals := mkStoredGoals {
  sg_goals : list BeeminderGoal;
  sg_updatedAt : Z }.

Record StoredTimerState := mkStoredTimerState {
  ts_status : Status;
  ts_remaining : Z;
  ts_deadline : option Z;
  ts_paused : bool;
  ts_goalSlug : string;
  ts_selectedDuration : Z;
  ts_comment : string }.

Definition SETTINGS_KEY : string := "beeminderTimerSettings".
Definition GOALS_KEY : string := "beeminderTimerGoals".
Definition TIMER_STATE_KEY : string := "beeminderTimerState".
Definition THIRTY_MINUTES : Z := 30 * 60.

(** What a [localStorage] entry holds, by the shape its reader casts it to. *)
Inductive Stored :=
| JSettings (s : StoredSettings)
| JGoals (g : StoredGoals)
| JTimer (t : StoredTimerState).

(** [flushMessage]: the literal texts, and
    [`Logged ${value.toFixed(2)} minutes to Beeminder.`]. *)
Inductive FlushMessage :=
| FlushText (s : string)
| FlushLogged (value : Q).

(** The [comment] parameter of a datapoint: [comment.trim()] when it is not
    empty, [`${selectedDuration / 60}-minutes focus session`] otherwise, and
    [`Flushed timer: ${value.toFixed(2)} minutes`] for a flush. *)
Inductive PostComment :=
| UserComment (trimmed : string)
| DefaultComment (minutes : Q)
| FlushedComment (value : Q).

(** The form body of [POST .../users/{username}/goals/{slug}/datapoints.json];
    [dp_value] is the number whose [toString()] is sent. *)
Record Datapoint := mkDatapoint {
  dp_username : string;
  dp_goalSlug : string;
  dp_auth_token : string;
  dp_value : Q;
  dp_comment : PostComment;
  dp_timestamp : Z }.

Inductive Request :=
| POST_datapoint (d : Datapoint)
| GET_goals (user auth_token : string).

(** What remains to run of an [async] function once its [fetch] settles. *)
Inductive Continuation :=
| AfterPost
| AfterFlush (value : Q)
| AfterGoals (goalSlugAtCall : string).

(** A settled [fetch]: a response with its status, its text and what
    [JSON.parse(text) as BeeminderGoal[]] gives (the message of the exception
    when it throws), or a rejection. *)
Inductive Response :=
| HttpResponse (code : Z) (text : string) (parsed : string + list BeeminderGoal)
| FetchRejected (message : string).

(** [res.ok] *)
Definition ok (code : Z) : bool := (200 <=? code) && (code <=? 299).

(** The component's state hooks, then the browser around them:
    [localStorage], [Date.now()], whether the countdown's interval is
    installed, every request sent so far (oldest first) and the fetches
    still awaiting their response. *)
Record World := mkWorld {
  remaining : option Z;
  deadline : option Z;
  status : Status;
  error : option string;
  paused : bool;
  username : string;
  authToken : string;
  goalSlug : string;
  comment : string;
  goals : list BeeminderGoal;
  loadingGoals : bool;
  goalsError : option string;
  lastGoalsUpdate : option Z;
  hasStoredSettings : bool;
  showSettingsForm : bool;
  selectedDuration : Z;
  flushMessage : option FlushMessage;
  localStorage : gmap string Stored;
  clock : Z;
  interval : bool;
  network : list Request;
  inflight : list Continuation }.

(** The setters of the hooks, and of the browser's parts. *)
Definition setRemaining (v : option Z) (w : World) : World :=
  mkWorld v (deadline w) (status w) (error w) (paused w) (username w) (authToken w)
    (goalSlug w) (comment w) (goals w) (loadingGoals w) (goalsError w)
    (lastGoalsUpdate w) (hasStoredSettings w) (showSettingsForm w)
    (selectedDuration w) (flushMessage w) (localStorage w) (clock w) (interval w)
    (network w) (inflight w).
Definition setDeadline (v : option Z) (w : World) : World :=
  mkWorld (remaining w) v (status w) (error w) (paused w) (username w) (authToken w)
    (goalSlug w) (comment w) (goals w) (loadingGoals w) (goalsError w)
    (lastGoalsUpdate w) (hasStoredSettings w) (showSettingsForm w)
    (selectedDuration w) (flushMessage w) (localStorage w) (clock w) (interval w)
    (network w) (inflight w).
Definition setStatus (v : Status) (w : World) : World :=
  mkWorld (remaining w) (deadline w) v (error w) (paused w) (username w) (authToken w)
    (goalSlug w) (comment w) (goals w) (loadingGoals w) (goalsError w)
    (lastGoalsUpdate w) (hasStoredSettings w) (showSettingsForm w)
    (selectedDuration w) (flushMessage w) (localStorage w) (clock w) (interval w)
    (network w) (inflight w).
Definition setError (v : option string) (w : World) : World :=
  mkWorld (remaining w) (deadline w) (status w) v (paused w) (username w)
    (authToken w) (goalSlug w) (comment w) (goals w) (loadingGoals w) (goalsError w)
    (lastGoalsUpdate w) (hasStoredSettings w) (showSettingsForm w)
    (selectedDuration w) (flushMessage w) (localStorage w) (clock w) (interval w)
    (network w) (inflight w).
Definition setPaused (v : bool) (w : World) : World :=
  mkWorld (remaining w) (deadline w) (status w) (error w) v (username w) (authToken w)
    (goalSlug w) (comment w) (goals w) (loadingGoals w) (goalsError w)
    (lastGoalsUpdate w) (hasStoredSettings w) (showSettingsForm w)
    (selectedDuration w) (flushMessage w) (localStorage w) (clock w) (interval w)
    (network w) (inflight w).
Definition setUsername (v : string) (w : World) : World :=
  mkWorld (remaining w) (deadline w) (status w) (error w) (paused w) v (authToken w)
    (goalSlug w) (comment w) (goals w) (loadingGoals w) (goalsError w)
    (lastGoalsUpdate w) (hasStoredSettings w) (showSettingsForm w)
    (selectedDuration w) (flushMessage w) (localStorage w) (clock w) (interval w)
    (network w) (inflight w).
Definition setAuthToken (v : string) (w : World) : World :=
  mkWorld (remaining w) (deadline w) (status w) (error w) (paused w) (username w) v
    (goalSlug w) (comment w) (goals w) (loadingGoals w) (goalsError w)
    (lastGoalsUpdate w) (hasStoredSettings w) (showSettingsForm w)
    (selectedDuration w) (flushMessage w) (localStorage w) (clock w) (interval w)
    (network w) (inflight w).
Definition setGoalSlug (v : string) (w : World) : World :=
  mkWorld (remaining w) (deadline w) (status w) (error w) (paused w) (username w)
    (authToken w) v (comment w) (goals w) (loadingGoals w) (goalsError w)
    (lastGoalsUpdate w) (hasStoredSettings w) (showSettingsForm w)
    (selectedDuration w) (flushMessage w) (localStorage w) (clock w) (interval w)
    (network w) (inflight w).
Definition setComment (v : string) (w : World) : World :=
  mkWorld (remaining w) (deadline w) (status w) (error w) (paused w) (username w)
    (authToken w) (goalSlug w) v (goals w) (loadingGoals w) (goalsError w)
    (lastGoalsUpdate w) (hasStoredSettings w) (showSettingsForm w)
    (selectedDuration w) (flushMessage w) (localStorage w) (clock w) (interval w)
    (network w) (inflight w).
Definition setGoals (v : list BeeminderGoal) (w : World) : World :=
  mkWorld (remaining w) (deadline w) (status w) (error w) (paused w) (username w)
    (authToken w) (goalSlug w) (comment w) v (loadingGoals w) (goalsError w)
    (lastGoalsUpdate w) (hasStoredSettings w) (showSettingsForm w)
    (selectedDuration w) (flushMessage w) (localStorage w) (clock w) (interval w)
    (network w) (inflight w).
Definition setLoadingGoals (v : bool) (w : World) : World :=
  mkWorld (remaining w) (deadline w) (status w) (error w) (paused w) (username w)
    (authToken w) (goalSlug w) (comment w) (goals w) v (goalsError w)
    (lastGoalsUpdate w) (hasStoredSettings w) (showSettingsForm w)
    (selectedDuration w) (flushMessage w) (localStorage w) (clock w) (interval w)
    (network w) (inflight w).
Definition setGoalsError (v : option string) (w : World) : World :=
  mkWorld (remaining w) (deadline w) (status w) (error w) (paused w) (username w)
    (authToken w) (goalSlug w) (comment w) (goals w) (loadingGoals w) v
    (lastGoalsUpdate w) (hasStoredSettings w) (showSettingsForm w)
    (selectedDuration w) (flushMessage w) (localStorage w) (clock w) (interval w)
    (network w) (inflight w).
Definition setLastGoalsUpdate (v : option Z) (w : World) : World :=
  mkWorld (remaining w) (deadline w) (status w) (error w) (paused w) (username w)
    (authToken w) (goalSlug w) (comment w) (goals w) (loadingGoals w) (goalsError w) v
    (hasStoredSettings w) (showSettingsForm w) (selectedDuration w) (flushMessage w)
    (localStorage w) (clock w) (interval w) (network w) (inflight w).
Definition setHasStoredSettings (v : bool) (w : World) : World :=
  mkWorld (remaining w) (deadline w) (status w) (error w) (paused w) (username w)
    (authToken w) (goalSlug w) (comment w) (goals w) (loadingGoals w) (goalsError w)
    (lastGoalsUpdate w) v (showSettingsForm w) (selectedDuration w) (flushMessage w)
    (localStorage w) (clock w) (interval w) (network w) (inflight w).
Definition setShowSettingsForm (v : bool) (w : World) : World :=
  mkWorld (remaining w) (deadline w) (status w) (error w) (paused w) (username w)
    (authToken w) (goalSlug w) (comment w) (goals w) (loadingGoals w) (goalsError w)
    (lastGoalsUpdate w) (hasStoredSettings w) v (selectedDuration w) (flushMessage w)
    (localStorage w) (clock w) (interval w) (network w) (inflight w).
Definition setSelectedDuration (v : Z) (w : World) : World :=
  mkWorld (remaining w) (deadline w) (status w) (error w) (paused w) (username w)
    (authToken w) (goalSlug w) (comment w) (goals w) (loadingGoals w) (goalsError w)
    (lastGoalsUpdate w) (hasStoredSettings w) (showSettingsForm w) v (flushMessage w)
    (localStorage w) (clock w) (interval w) (network w) (inflight w).
Definition setFlushMessage (v : option FlushMessage) (w : World) : World :=
  mkWorld (remaining w) (deadline w) (status w) (error w) (paused w) (username w)
    (authToken w) (goalSlug w) (comment w) (goals w) (loadingGoals w) (goalsError w)
    (lastGoalsUpdate w) (hasStoredSettings w) (showSettingsForm w)
    (selectedDuration w) v (localStorage w) (clock w) (interval w) (network w)
    (inflight w).
Definition setStorage (v : gmap string Stored) (w : World) : World :=
  mkWorld (remaining w) (deadline w) (status w) (error w) (paused w) (username w)
    (authToken w) (goalSlug w) (comment w) (goals w) (loadingGoals w) (goalsError w)
    (lastGoalsUpdate w) (hasStoredSettings w) (showSettingsForm w)
    (selectedDuration w) (flushMessage w) v (clock w) (interval w) (network w)
    (inflight w).
Definition setClock (v : Z) (w : World) : World :=
  mkWorld (remaining w) (deadline w) (status w) (error w) (paused w) (username w)
    (authToken w) (goalSlug w) (comment w) (goals w) (loadingGoals w) (goalsError w)
    (lastGoalsUpdate w) (hasStoredSettings w) (showSettingsForm w)
    (selectedDuration w) (flushMessage w) (localStorage w) v (interval w) (network w)
    (inflight w).
Definition setIntervalOn (v : bool) (w : World) : World :=
  mkWorld (remaining w) (deadline w) (status w) (error w) (paused w) (username w)
    (authToken w) (goalSlug w) (comment w) (goals w) (loadingGoals w) (goalsError w)
    (lastGoalsUpdate w) (hasStoredSettings w) (showSettingsForm w)
    (selectedDuration w) (flushMessage w) (localStorage w) (clock w) v (network w)
    (inflight w).
Definition setNetwork (v : list Request) (w : World) : World :=
  mkWorld (remaining w) (deadline w) (status w) (error w) (paused w) (username w)
    (authToken w) (goalSlug w) (comment w) (goals w) (loadingGoals w) (goalsError w)
    (lastGoalsUpdate w) (hasStoredSettings w) (showSettingsForm w)
    (selectedDuration w) (flushMessage w) (localStorage w) (clock w) (interval w) v
    (inflight w).
Definition setInflight (v : list Continuation) (w : World) : World :=
  mkWorld (remaining w) (deadline w) (status w) (error w) (paused w) (username w)
    (authToken w) (goalSlug w) (comment w) (goals w) (loadingGoals w) (goalsError w)
    (lastGoalsUpdate w) (hasStoredSettings w) (showSettingsForm w)
    (selectedDuration w) (flushMessage w) (localStorage w) (clock w) (interval w)
    (network w) v.

(** Statements of a handler in source order: [w |> f |> g] runs [f], then [g]. *)
Local Notation "w |> f" := (f w) (at level 45, left associativity, only parsing).

(** ** JavaScript and browser primitives *)

(** [!s] on a string: only the empty string is falsy. *)
Definition empty (s : string) : bool := bool_decide (s = "").

(** [s || d] on strings and [n || d] on integers. *)
Definition str_or (s d : string) : string := if empty s then d else s.
Definition num_or (n d : Z) : Z := if bool_decide (n = 0) then d else n.

(** [Math.round(ms / 1000)] for an integer [ms]: the nearest integer, a tie
    going up.  [ms / 1000] is a double, but a double next to [k + 0.5] is on
    the same side of it as the exact quotient, so the integer is this one. *)
Definition round_div_1000 (ms : Z) : Z := (ms + 500) / 1000.

(** [Math.floor(ms / 1000)] *)
Definition floor_div_1000 (ms : Z) : Z := ms / 1000.

(** [s.trim()], on the ASCII white space. *)
Definition is_space (a : ascii) : bool :=
  bool_decide (a ∈ [" "; "009"; "010"; "011"; "012"; "013"]%char).

Fixpoint trimStart (s : string) : string :=
  match s with
  | String a s' => if is_space a then trimStart s' else s
  | EmptyString => EmptyString
  end.

Definition trim (s : string) : string :=
  String.rev (trimStart (String.rev (trimStart s))).

Definition setItem (k : string) (v : Stored) (w : World) : World :=
  w |> setStorage (<[k := v]> (localStorage w)).

Definition removeItem (k : string) (w : World) : World :=
  w |> setStorage (delete k (localStorage w)).

(** [fetch]: the request leaves now; the rest of the caller waits. *)
Definition fetch (r : Request) (k : Continuation) (w : World) : World :=
  w |> setNetwork (network w ++ [r]) |> setInflight (inflight w ++ [k]).

(** The exception a settled [fetch] ends in, if any: the rejection, or
    [`${prefix} ${res.status}: ${text}`] when [!res.ok]. *)
Definition failure (prefix : string) (r : Response) : option string :=
  match r with
  | FetchRejected message => Some message
  | HttpResponse code text _ =>
      if ok code then None
      else Some (prefix +:+ " " +:+ pretty code +:+ ": " +:+ text)
  end.

(** ** Handlers *)

Definition startTimer (w : World) : World :=
  if empty (goalSlug w) then
    w |> setStatus Error |> setError (Some "You must select a goal first.")
  else if empty (username w) || empty (authToken w) then
    w |> setStatus Error
      |> setError (Some "Username and auth token are required to start.")
  else
    let now := clock w in
    let timerState :=
      {| ts_status := Running;
         ts_remaining := selectedDuration w;
         ts_deadline := Some (now + selectedDuration w * 1000);
         ts_paused := false;
         ts_goalSlug := goalSlug w;
         ts_selectedDuration := selectedDuration w;
         ts_comment := comment w |} in
    w |> setError None
      |> setFlushMessage None
      |> setStatus Running
      |> setPaused false
      |> setRemaining (Some (selectedDuration w))
      |> setDeadline (Some (now + selectedDuration w * 1000))
      |> setItem TIMER_STATE_KEY (JTimer timerState).

Definition cancelTimer (w : World) : World :=
  w |> setDeadline None
    |> setRemaining None
    |> setStatus Idle
    |> setPaused false
    |> setError None
    |> setFlushMessage None
    |> removeItem TIMER_STATE_KEY.

Definition resetAfterFinish (w : World) : World :=
  w |> setDeadline None
    |> setRemaining None
    |> setStatus Idle
    |> setPaused false
    |> setError None
    |> setFlushMessage None
    |> removeItem TIMER_STATE_KEY.

(** The record written is built from the values of the current render:
    [deadline] is the one from before the toggle. *)
Definition togglePause (w : World) : World :=
  match remaining w with
  | None => w
  | Some r =>
      let timerState :=
        {| ts_status := status w;
           ts_remaining := r;
           ts_deadline := deadline w;
           ts_paused := negb (paused w);
           ts_goalSlug := goalSlug w;
           ts_selectedDuration := selectedDuration w;
           ts_comment := comment w |} in
      (if negb (paused w) then
         w |> setDeadline None |> setPaused true
       else
         let now := clock w in
         w |> setDeadline (Some (now + r * 1000)) |> setPaused false)
      |> setItem TIMER_STATE_KEY (JTimer timerState)
  end.

(** [flushTimer] up to its [await fetch]. *)
Definition flushTimer (w : World) : World :=
  match remaining w with
  | None => w
  | Some r =>
      if (selectedDuration w <=? 0) || empty (username w)
         || empty (authToken w) || empty (goalSlug w) then w
      else
        let elapsed := selectedDuration w - r in
        if elapsed <=? 0 then
          w |> setFlushMessage (Some (FlushText "No time elapsed to flush."))
        else
          let value := (inject_Z elapsed / 60)%Q in
          w |> setStatus Posting
            |> setError None
            |> fetch (POST_datapoint
                        {| dp_username := username w;
                           dp_goalSlug := goalSlug w;
                           dp_auth_token := authToken w;
                           dp_value := value;
                           dp_comment := FlushedComment value;
                           dp_timestamp := floor_div_1000 (clock w) |})
                     (AfterFlush value)
  end.

(** [flushTimer] from its [await fetch] on. *)
Definition flushTimer_settled (value : Q) (r : Response) (w : World) : World :=
  match failure "Beeminder error" r with
  | Some message => w |> setStatus Error |> setError (Some message)
  | None =>
      w |> setDeadline None
        |> setRemaining None
        |> setStatus Idle
        |> setPaused false
        |> removeItem TIMER_STATE_KEY
        |> setFlushMessage (Some (FlushLogged value))
  end.

(** [postToBeeminder] up to its [await fetch]. *)
Definition postToBeeminder (w : World) : World :=
  let actualComment :=
    if empty (trim (comment w))
    then DefaultComment (inject_Z (selectedDuration w) / 60)%Q
    else UserComment (trim (comment w)) in
  w |> setStatus Posting
    |> setError None
    |> fetch (POST_datapoint
                {| dp_username := username w;
                   dp_goalSlug := goalSlug w;
                   dp_auth_token := authToken w;
                   dp_value := (inject_Z (selectedDuration w) / 60)%Q;
                   dp_comment := actualComment;
                   dp_timestamp := floor_div_1000 (clock w) |})
             AfterPost.

(** [postToBeeminder] from its [await fetch] on. *)
Definition postToBeeminder_settled (r : Response) (w : World) : World :=
  match failure "Beeminder error" r with
  | Some message => w |> setStatus Error |> setError (Some message)
  | None => w |> setStatus Finished |> removeItem TIMER_STATE_KEY
  end.

Definition saveSettings (w : World) : World :=
  let settings :=
    {| ss_username := username w;
       ss_authToken := authToken w;
       ss_goalSlug := goalSlug w |} in
  let w' := w |> setItem SETTINGS_KEY (JSettings settings) in
  if negb (empty (username w)) && negb (empty (authToken w)) then
    w' |> setHasStoredSettings true |> setShowSettingsForm false
  else w'.

(** [refreshGoals] up to its [await fetch]. *)
Definition refreshGoals (w : World) : World :=
  if empty (username w) || empty (authToken w) then
    w |> setGoalsError
           (Some "Username and auth token are required to load goals.")
  else
    w |> setLoadingGoals true
      |> setGoalsError None
      |> fetch (GET_goals (username w) (authToken w)) (AfterGoals (goalSlug w)).

(** [refreshGoals] from its [await fetch] on; [goalSlug] is the one of the
    render the button was clicked in.  (A rejected fetch always is a
    [failure]: the second case is there for the match to be complete.) *)
Definition refreshGoals_settled (goalSlugAtCall : string) (r : Response)
    (w : World) : World :=
  (match failure "Beeminder goals error" r, r with
   | Some message, _ => w |> setGoalsError (Some message)
   | None, FetchRejected _ => w
   | None, HttpResponse _ _ (inl message) => w |> setGoalsError (Some message)
   | None, HttpResponse _ _ (inr parsed) =>
       let filteredGoals :=
         filter (λ goal, gunits goal = Some "minutes") parsed in
       let now := clock w in
       let w' :=
         w |> setGoals filteredGoals
           |> setLastGoalsUpdate (Some now)
           |> setItem GOALS_KEY
                (JGoals {| sg_goals := filteredGoals; sg_updatedAt := now |}) in
       match filteredGoals with
       | first :: _ =>
           if empty goalSlugAtCall then w' |> setGoalSlug (slug first) else w'
       | [] => w'
       end
   end)
  |> setLoadingGoals false.

(** The space bar (focus outside the text fields). *)
Definition handleKeyDown (w : World) : World :=
  if empty (goalSlug w) || empty (username w) || empty (authToken w)
     || (selectedDuration w <=? 0) then w
  else if bool_decide (status w = Idle) then startTimer w
  else if bool_decide (status w = Running) || paused w then togglePause w
  else w.

(** ** Effects *)

(** The mount effect: what [localStorage] holds goes into the hooks.  On a
    string [x ?? ""] is [x]. *)
Definition load_effect (w : World) : World :=
  let w1 :=
    match localStorage w !! SETTINGS_KEY with
    | Some (JSettings parsed) =>
        let loadedUsername := ss_username parsed in
        let loadedToken := ss_authToken parsed in
        let loadedGoalSlug := ss_goalSlug parsed in
        let w' :=
          w |> setUsername loadedUsername
            |> setAuthToken loadedToken
            |> setGoalSlug loadedGoalSlug in
        if negb (empty loadedUsername) && negb (empty loadedToken) then
          w' |> setHasStoredSettings true |> setShowSettingsForm false
        else w'
    | _ => w
    end in
  let w2 :=
    match localStorage w !! GOALS_KEY with
    | Some (JGoals parsed) =>
        w1 |> setGoals (sg_goals parsed)
           |> setLastGoalsUpdate (Some (sg_updatedAt parsed))
    | _ => w1
    end in
  match localStorage w !! TIMER_STATE_KEY with
  | Some (JTimer parsed) =>
      w2 |> setStatus (ts_status parsed)
         |> setRemaining (Some (ts_remaining parsed))
         |> setDeadline (ts_deadline parsed)
         |> setPaused (ts_paused parsed)
         |> setGoalSlug (str_or (ts_goalSlug parsed) "")
         |> setSelectedDuration (num_or (ts_selectedDuration parsed) 0)
         |> setComment (str_or (ts_comment parsed) "")
  | _ => w2
  end.

(** The countdown effect, dependencies [[status, deadline]]: its cleanup
    clears the interval of the previous run, its body installs one while the
    timer runs against a deadline. *)
Definition countdown_deps (w : World) : Status * option Z :=
  (status w, deadline w).

Definition countdown_effect (w : World) : World :=
  if bool_decide (status w ≠ Running) || bool_decide (deadline w = None) then
    w |> setIntervalOn false
  else
    w |> setIntervalOn true.

(** The callback of that interval, every 250 ms while it is installed. *)
Definition interval_callback (w : World) : World :=
  match deadline w with
  | None => w
  | Some deadline =>
      let msLeft := deadline - clock w in
      let secsLeft := Z.max 0 (round_div_1000 msLeft) in
      let w' := w |> setRemaining (Some secsLeft) in
      if secsLeft <=? 0 then w' |> setIntervalOn false else w'
  end.

(** The post effect, dependencies
    [[remaining, status, username, authToken, goalSlug, comment, selectedDuration]]. *)
Definition post_deps (w : World)
    : option Z * Status * string * string * string * string * Z :=
  (remaining w, status w, username w, authToken w, goalSlug w, comment w,
   selectedDuration w).

Definition post_effect (w : World) : World :=
  if bool_decide (remaining w ≠ Some 0) || bool_decide (status w = Posting)
     || bool_decide (status w = Finished) then w
  else if empty (username w) || empty (authToken w) || empty (goalSlug w) then
    w |> setStatus Error
      |> setError (Some "Username, auth token and goal slug are required.")
  else postToBeeminder w.

(** One round after a render: the effects whose dependencies differ from
    those of the previous render run, in the order of the source. *)
Definition run_effects (prev cur : World) : World :=
  let c1 :=
    if bool_decide (countdown_deps prev = countdown_deps cur) then cur
    else countdown_effect cur in
  if bool_decide (post_deps prev = post_deps cur) then c1 else post_effect c1.

Definition same_deps (a b : World) : bool :=
  bool_decide (countdown_deps a = countdown_deps b)
  && bool_decide (post_deps a = post_deps b).

(** Rounds of effects until no dependency changes any more. *)
Fixpoint settle_n (rounds : nat) (prev cur : World) : World :=
  match rounds with
  | O => cur
  | S n =>
      let next := run_effects prev cur in
      if same_deps cur next then next else settle_n n cur next
  end.

(** Two rounds are always enough ([settle_n_stable] below). *)
Definition settle : World → World → World := settle_n 2.

(** ** Events *)

(** What can happen to the page: the user edits a field, picks a duration
    with a button or types it, clicks a button or presses the space bar; the
    interval ticks, time passes, a fetch settles. *)
Inductive Event :=
| TypeUsername (s : string)
| TypeAuthToken (s : string)
| SelectGoal (s : string)
| TypeComment (s : string)
| ClickDuration (duration : Z)
| TypeDuration (parsed : option Z)
| ClickStart
| ClickPause
| ClickCancel
| ClickFlush
| ClickReset
| PressSpace
| ClickSave
| ClickEditSettings
| ClickRefreshGoals
| Tick
| Elapse (ms : Z)
| Respond (i : nat) (r : Response).

Definition running (w : World) : bool := bool_decide (status w = Running).

Definition durations : list Z := [5; 10; 20; 30; 45; 60].

Definition settingsFormShown (w : World) : bool :=
  negb (hasStoredSettings w) || showSettingsForm w.

(** When the page offers the event: the element is rendered and not
    disabled; the interval is installed; the fetch is in flight. *)
Definition enabled (e : Event) (w : World) : bool :=
  match e with
  | TypeUsername _ | TypeAuthToken _ => settingsFormShown w && negb (running w)
  | SelectGoal s =>
      negb (running w || bool_decide (length (goals w) = 0%nat))
      && bool_decide (s = "" ∨ s ∈ slug <$> goals w)
  | TypeComment _ => negb (running w)
  | ClickDuration duration => bool_decide (duration ∈ durations) && negb (running w)
  | TypeDuration _ => bool_decide (status w = Idle)
  | ClickStart => bool_decide (status w = Idle)
  | ClickPause | ClickCancel | ClickFlush => bool_decide (status w = Running)
  | ClickReset =>
      bool_decide (status w = Finished) || bool_decide (status w = Posting)
      || bool_decide (status w = Error)
  | PressSpace => true
  | ClickSave => settingsFormShown w
  | ClickEditSettings =>
      hasStoredSettings w && negb (showSettingsForm w) && negb (running w)
  | ClickRefreshGoals => negb (running w || loadingGoals w)
  | Tick => interval w
  | Elapse ms => 0 <=? ms
  | Respond i _ => bool_decide (is_Some (inflight w !! i))
  end.

(** What the event's handler does to the state it was rendered with.
    [TypeDuration parsed]: [parsed] is [parseInt(value)] of the text before
    the colon, [None] for [NaN]; the minutes are [parseInt(value) || 1]. *)
Definition handle (e : Event) (w : World) : World :=
  match e with
  | TypeUsername s => w |> setUsername s
  | TypeAuthToken s => w |> setAuthToken s
  | SelectGoal s => w |> setGoalSlug s
  | TypeComment s => w |> setComment s
  | ClickDuration duration => w |> setSelectedDuration (duration * 60)
  | TypeDuration parsed =>
      let minutes := match parsed with Some n => num_or n 1 | None => 1 end in
      w |> setSelectedDuration (minutes * 60)
  | ClickStart => startTimer w
  | ClickPause => togglePause w
  | ClickCancel => cancelTimer w
  | ClickFlush => flushTimer w
  | ClickReset => resetAfterFinish w
  | PressSpace => handleKeyDown w
  | ClickSave => saveSettings w
  | ClickEditSettings => w |> setShowSettingsForm true
  | ClickRefreshGoals => refreshGoals w
  | Tick => interval_callback w
  | Elapse ms => w |> setClock (clock w + ms)
  | Respond i r =>
      match inflight w !! i with
      | None => w
      | Some k =>
          let w' := w |> setInflight (delete i (inflight w)) in
          match k with
          | AfterPost => postToBeeminder_settled r w'
          | AfterFlush value => flushTimer_settled value r w'
          | AfterGoals goalSlugAtCall => refreshGoals_settled goalSlugAtCall r w'
          end
      end
  end.

(** The handler, then the effects. *)
Definition fire (e : Event) (w : World) : World := settle w (handle e w).

Definition step (e : Event) (w : World) : option World :=
  if enabled e w then Some (fire e w) else None.

Fixpoint run (es : list Event) (w : World) : option World :=
  match es with
  | [] => Some w
  | e :: es' =>
      match step e w with
      | Some w' => run es' w'
      | None => None
      end
  end.

(** The first render: the defaults of the hooks. *)
Definition first_render (storage : gmap string Stored) (now : Z)
    (sent : list Request) : World :=
  {| remaining := None; deadline := None; status := Idle; error := None;
     paused := false; username := ""; authToken := ""; goalSlug := "";
     comment := ""; goals := []; loadingGoals := false; goalsError := None;
     lastGoalsUpdate := None; hasStoredSettings := false;
     showSettingsForm := true; selectedDuration := THIRTY_MINUTES;
     flushMessage := None;
     localStorage := storage; clock := now; interval := false;
     network := sent; inflight := [] |}.

(** Mounting the component: the first render, the mount effect, then the
    other effects. *)
Definition mount (storage : gmap string Stored) (now : Z)
    (sent : list Request) : World :=
  let w := first_render storage now sent in
  settle w (load_effect w).

(** A fresh page: nothing stored, nothing sent. *)
Definition fresh_page (now : Z) : World := mount ∅ now [].

(** Reloading the page: the hooks start over, [localStorage] stays, and the
    continuations of the fetches in flight are gone with the old page. *)
Definition reload (w : World) : World :=
  mount (localStorage w) (clock w) (network w).

(** The states the page can be in: those that events the page offers, and
    reloads, lead to from a fresh page. *)
Inductive reachable : World → Prop :=
| reach_fresh now : reachable (fresh_page now)
| reach_step e w : reachable w → enabled e w = true → reachable (fire e w)
| reach_reload w : reachable w → reachable (reload w).

(** ** Vocabulary of the statements *)

(** What the effects leave alone: every hook except [status] and [error],
    and with them [localStorage] and the clock. *)
Definition same_form (a b : World) : Prop :=
  remaining a = remaining b ∧ deadline a = deadline b ∧ paused a = paused b
  ∧ username a = username b ∧ authToken a = authToken b
  ∧ goalSlug a = goalSlug b ∧ comment a = comment b
  ∧ selectedDuration a = selectedDuration b
  ∧ flushMessage a = flushMessage b ∧ localStorage a = localStorage b
  ∧ clock a = clock b ∧ goals a = goals b ∧ loadingGoals a = loadingGoals b
  ∧ goalsError a = goalsError b ∧ lastGoalsUpdate a = lastGoalsUpdate b
  ∧ hasStoredSettings a = hasStoredSettings b
  ∧ showSettingsForm a = showSettingsForm b.

(** The three ways through the post effect: it returns at once, it reports
    a missing field, or it posts. *)
Definition post_inert (w : World) : Prop :=
  remaining w ≠ Some 0 ∨ status w = Posting ∨ status w = Finished.

Definition missing (w : World) : Prop :=
  username w = "" ∨ authToken w = "" ∨ goalSlug w = "".

#[global] Instance post_inert_dec w : Decision (post_inert w).
Proof. unfold post_inert; apply _. Defined.

#[global] Instance missing_dec w : Decision (missing w).
Proof. unfold missing; apply _. Defined.

(** The effects after a render, in closed form: the countdown effect if the
    handler changed its dependencies, the post effect if it changed its own,
    and the countdown effect once more if the post effect changed [status]
    ([settle_settled]). *)
Definition settled (prev cur : World) : World :=
  let c1 :=
    if bool_decide (countdown_deps prev = countdown_deps cur) then cur
    else countdown_effect cur in
  if bool_decide (post_deps prev = post_deps cur) then c1
  else
    let next := post_effect c1 in
    if bool_decide (status next = status cur) then next else countdown_effect next.

(** What the post effect does to a render, if it runs at all. *)
Definition after_post_effect (prev cur : World) : World :=
  if bool_decide (post_deps prev = post_deps cur) then cur else post_effect cur.

(** Invariants of the reachable states.  The interval is installed exactly
    while the timer runs against a deadline; a running timer has not reached
    zero. *)
Definition ticking_inv (w : World) : Prop :=
  interval w = bool_decide (status w = Running ∧ deadline w ≠ None).

Definition running_inv (w : World) : Prop :=
  status w = Running → remaining w ≠ Some 0.

Definition session_inv (w : World) : Prop := ticking_inv w ∧ running_inv w.




(** The messages of the checks for a missing field. *)
Definition validation_messages : list string :=
  [ "You must select a goal first.";
    "Username and auth token are required to start.";
    "Username, auth token and goal slug are required." ].

(** The datapoint the post effect sends. *)
Definition session_datapoint (w : World) : Datapoint :=
  {| dp_username := username w;
     dp_goalSlug := goalSlug w;
     dp_auth_token := authToken w;
     dp_value := (inject_Z (selectedDuration w) / 60)%Q;
     dp_comment :=
       if empty (trim (comment w))
       then DefaultComment (inject_Z (selectedDuration w) / 60)%Q
       else UserComment (trim (comment w));
     dp_timestamp := floor_div_1000 (clock w) |}.

(** The datapoint a flush sends after [elapsed] seconds. *)
Definition flush_datapoint (w : World) (elapsed : Z) : Datapoint :=
  {| dp_username := username w;
     dp_goalSlug := goalSlug w;
     dp_auth_token := authToken w;
     dp_value := (inject_Z elapsed / 60)%Q;
     dp_comment := FlushedComment (inject_Z elapsed / 60)%Q;
     dp_timestamp := floor_div_1000 (clock w) |}.

(** The datapoints among the requests sent. *)
Definition posts (requests : list Request) : list Datapoint :=
  omap (λ request, match request with
                   | POST_datapoint d => Some d
                   | GET_goals _ _ => None
                   end) requests.

(** The goal slug a reload ends with: the one of the persisted timer, if
    there is one. *)
Definition reloaded_goalSlug (w : World) : string :=
  match localStorage w !! TIMER_STATE_KEY with
  | Some (JTimer parsed) => ts_goalSlug parsed
  | _ => goalSlug w
  end.


(** The round trip of the settings as the specification words it. *)
Definition spec_settings_round_trip (w : World) : Prop :=
  let w' := reload (fire ClickSave w) in
  username w' = username w ∧ authToken w' = authToken w
  ∧ goalSlug w' = goalSlug w.

(** The flush with nothing elapsed as the specification words it. *)
Definition spec_flush_nothing_elapsed (w : World) : Prop :=
  ∀ r, remaining w = Some r → selectedDuration w - r = 0 →
       network (fire ClickFlush w) = network w
       ∧ flushMessage (fire ClickFlush w)
         = Some (FlushText "No time elapsed to flush.").

(** ** Sample sessions *)

(** The goals of the account: two of them count minutes. *)
Definition two_goals : Response :=
  HttpResponse 200 "[..]"
    (inr [ mkGoal "read" None (Some "minutes");
           mkGoal "run" (Some "Running") (Some "km");
           mkGoal "code" None (Some "minutes") ]).

(** A datapoint accepted. *)
Definition created : Response := HttpResponse 200 "{}" (inl "").

(** Credentials typed (not saved), goals loaded, twenty minutes chosen. *)
Definition signed_in : list Event :=
  [ TypeUsername "alice"; TypeAuthToken "tok"; ClickRefreshGoals;
    Respond 0 two_goals; ClickDuration 20 ].

(** The state a session leads to (the fresh page if it cannot happen). *)
Definition after (es : list Event) (now : Z) : World :=
  default (fresh_page now) (run es (fresh_page now)).

(** ** More vocabulary: goals *)

(** The goals the page keeps are those that count minutes. *)
Definition counts_minutes (goal : BeeminderGoal) : Prop :=
  gunits goal = Some "minutes".

(** How a goals response fails: as a fetch, or in [JSON.parse]. *)
Definition goals_failure (r : Response) : option string :=
  match failure "Beeminder goals error" r, r with
  | Some message, _ => Some message
  | None, HttpResponse _ _ (inl message) => Some message
  | None, _ => None
  end.

Definition isAfterGoals (k : Continuation) : bool :=
  match k with AfterGoals _ => true | _ => false end.

(** The refreshes of the goals that are in flight. *)
Definition goal_fetches (ks : list Continuation) : nat :=
  length (filter (λ k, Is_true (isAfterGoals k)) ks).

Arguments goal_fetches : simpl never.

Definition goals_inv (w : World) : Prop :=
  Forall counts_minutes (goals w)
  ∧ ∀ cached, localStorage w !! GOALS_KEY = Some (JGoals cached) →
              Forall counts_minutes (sg_goals cached).

Definition loading_inv (w : World) : Prop :=
  goal_fetches (inflight w) = if loadingGoals w then 1%nat else 0%nat.

(** ** More vocabulary: requests and durations *)




(** ** The display and the duration field *)

(** [Number.MAX_SAFE_INTEGER]: up to it the integers are JavaScript numbers
    of their own. *)
Definition MAX_SAFE_INTEGER : Z := 2 ^ 53 - 1.

(** [n.toString()] for an integer, which has its decimal digits up to
    [MAX_SAFE_INTEGER] and beyond, until the exponents begin at [1e21]. *)
Definition toString (n : Z) : string := pretty n.

Fixpoint pad (count : nat) (c : ascii) (s : string) : string :=
  match count with
  | O => s
  | S count' => String c (pad count' c s)
  end.

(** [s.padStart(targetLength, c)] for a pad string of the one character
    [c]. *)
Definition padStart (targetLength : nat) (c : ascii) (s : string) : string :=
  pad (targetLength - String.length s) c s.

(** [Math.floor(totalSeconds / 60)] is the quotient that rounds down, [%]
    the remainder with the sign of the dividend. *)
Definition formatTime (totalSeconds : Z) : string :=
  let m := padStart 2 "0" (toString (totalSeconds / 60)) in
  let s := padStart 2 "0" (toString (Z.rem totalSeconds 60)) in
  m +:+ ":" +:+ s.

(** What the duration field shows while idle, [`${selectedDuration / 60}:00`],
    for a selected duration of [minutes] whole minutes. *)
Definition durationField (minutes : Z) : string := toString minutes +:+ ":00".

(** [value.split(":")[0]] *)
Fixpoint beforeColon (value : string) : string :=
  match value with
  | String a rest => if bool_decide (a = ":"%char) then "" else String a (beforeColon rest)
  | EmptyString => EmptyString
  end.

(** The value of a decimal digit, by its code from [0] at 48 to [9] at 57. *)
Definition digit (a : ascii) : option Z :=
  let code := Z.of_N (N_of_ascii a) in
  if bool_decide (48 ≤ code ≤ 57) then Some (code - 48) else None.

(** The value of a hexadecimal digit: also [a] to [f] from 97 and [A] to [F]
    from 65. *)
Definition hex_digit (a : ascii) : option Z :=
  let code := Z.of_N (N_of_ascii a) in
  if bool_decide (97 ≤ code ≤ 102) then Some (code - 87)
  else if bool_decide (65 ≤ code ≤ 70) then Some (code - 55)
  else digit a.

(** The number the leading digits of [s] spell in the radix, after [acc]. *)
Fixpoint digits_value (radix : Z) (value_of : ascii → option Z) (acc : Z)
    (s : string) : Z :=
  match s with
  | String a rest =>
      match value_of a with
      | Some v => digits_value radix value_of (acc * radix + v) rest
      | None => acc
      end
  | EmptyString => acc
  end.

(** A text of decimal digits only. *)
Fixpoint all_digits (s : string) : bool :=
  match s with
  | String a rest => bool_decide (is_Some (digit a)) && all_digits rest
  | EmptyString => true
  end.

(** [parseInt(s)], without a radix: white space, a sign, [0x] for
    hexadecimal, then the digits up to the first other character; [None] is
    [NaN], when there is no digit. *)
Definition parseInt (s : string) : option Z :=
  let s := trimStart s in
  let '(sign, s) :=
    match s with
    | String "-" rest => (-1, rest)
    | String "+" rest => (1, rest)
    | _ => (1, s)
    end in
  let '(radix, value_of, s) :=
    match s with
    | String "0" (String "x" rest) | String "0" (String "X" rest) =>
        (16, hex_digit, rest)
    | _ => (10, digit, s)
    end in
  match s with
  | String a _ =>
      match value_of a with
      | Some _ => Some (sign * digits_value radix value_of 0 s)
      | None => None
      end
  | EmptyString => None
  end.

(** The change of the duration field to the text [value]. *)
Definition typeDuration (value : string) : Event :=
  TypeDuration (parseInt (beforeColon value)).

(** ** The first revision of the countdown *)

(** In the first revision of [App.tsx] the interval, every second while
    [remaining] is positive and the timer is not paused, sets [remaining]
    with this updater. *)
Definition countdown_updater (prev : option Z) : option Z :=
  match prev with
  | None => prev
  | Some p => if p <=? 1 then Some 0 else Some (p - 1)
  end.

(** A second of that countdown: the updater if the interval is installed. *)
Definition first_revision_tick (paused : bool) (remaining : option Z)
    : option Z :=
  match remaining with
  | None => remaining
  | Some r => if (r <=? 0) || paused then remaining else countdown_updater remaining
  end.

(** ** The post effect *)

Lemma inert_test w :
  bool_decide (remaining w ≠ Some 0) || bool_decide (status w = Posting)
  || bool_decide (status w = Finished) = bool_decide (post_inert w).
Proof. unfold post_inert. repeat case_bool_decide; simpl; intuition congruence. Qed.

Lemma missing_test w :
  empty (username w) || empty (authToken w) || empty (goalSlug w)
  = bool_decide (missing w).
Proof. unfold missing, empty. repeat case_bool_decide; simpl; intuition congruence. Qed.

Lemma post_effect_inert w : post_inert w → post_effect w = w.
Proof. intros H. unfold post_effect. by rewrite inert_test, bool_decide_eq_true_2. Qed.

Lemma post_effect_missing w :
  ¬ post_inert w → missing w →
  post_effect w
  = setError (Some "Username, auth token and goal slug are required.")
      (setStatus Error w).
Proof.
  intros Hi Hm. unfold post_effect.
  by rewrite inert_test, missing_test, bool_decide_eq_false_2, bool_decide_eq_true_2.
Qed.

Lemma post_effect_posts w :
  ¬ post_inert w → ¬ missing w → post_effect w = postToBeeminder w.
Proof.
  intros Hi Hm. unfold post_effect.
  by rewrite inert_test, missing_test, !bool_decide_eq_false_2.
Qed.

Ltac post_effect_cases w :=
  destruct (decide (post_inert w)) as [?Hinert|?Hinert];
  [ rewrite (post_effect_inert w) by assumption
  | destruct (decide (missing w)) as [?Hmiss|?Hmiss];
    [ rewrite (post_effect_missing w) by assumption
    | rewrite (post_effect_posts w) by assumption ] ].

Lemma post_effect_form w : same_form (post_effect w) w.
Proof. post_effect_cases w; repeat split. Qed.

(** The post effect has nothing more to do once it has run. *)
Lemma post_effect_idem w : post_effect (post_effect w) = post_effect w.
Proof.
  post_effect_cases w.
  - by apply post_effect_inert.
  - rewrite post_effect_missing; [done| |done].
    unfold post_inert in *; cbn. intuition congruence.
  - apply post_effect_inert. unfold post_inert; cbn. tauto.
Qed.

Lemma post_effect_setIntervalOn b w :
  post_effect (setIntervalOn b w) = setIntervalOn b (post_effect w).
Proof.
  post_effect_cases w.
  - by apply post_effect_inert.
  - by rewrite post_effect_missing.
  - by rewrite post_effect_posts.
Qed.


Lemma postToBeeminder_eq w :
  postToBeeminder w
  = fetch (POST_datapoint (session_datapoint w)) AfterPost
      (setError None (setStatus Posting w)).
Proof. reflexivity. Qed.

(** ** The countdown effect *)

Lemma countdown_effect_form w : same_form (countdown_effect w) w.
Proof. unfold countdown_effect; destruct (_ || _); repeat split. Qed.

Lemma countdown_effect_status w : status (countdown_effect w) = status w.
Proof. unfold countdown_effect; by destruct (_ || _). Qed.

Lemma countdown_effect_interval w :
  countdown_effect w
  = setIntervalOn (bool_decide (status w = Running ∧ deadline w ≠ None)) w.
Proof.
  unfold countdown_effect.
  repeat case_bool_decide; simpl; try reflexivity; intuition congruence.
Qed.

(** ** The effects settle *)

Lemma same_form_refl a : same_form a a.
Proof. repeat split. Qed.

Lemma same_form_sym a b : same_form a b → same_form b a.
Proof. unfold same_form. intros H1. destruct_and!. repeat split; congruence. Qed.

Lemma same_form_trans a b c : same_form a b → same_form b c → same_form a c.
Proof. unfold same_form. intros H1 H2. destruct_and!. repeat split; congruence. Qed.

Lemma post_deps_status a b :
  same_form a b → post_deps a = post_deps b ↔ status a = status b.
Proof.
  unfold same_form, post_deps. intros (-> & _ & _ & -> & -> & -> & -> & -> & _).
  split; [by intros [=] | by intros ->].
Qed.

Lemma countdown_deps_status a b :
  same_form a b → countdown_deps a = countdown_deps b ↔ status a = status b.
Proof.
  unfold same_form, countdown_deps. intros (_ & -> & _).
  split; [by intros [=] | by intros ->].
Qed.

Lemma post_deps_inv a b :
  post_deps a = post_deps b → remaining a = remaining b ∧ status a = status b.
Proof. unfold post_deps. by intros [= -> -> _]. Qed.

Lemma countdown_deps_inv a b :
  countdown_deps a = countdown_deps b → status a = status b ∧ deadline a = deadline b.
Proof. unfold countdown_deps. by intros [= -> ->]. Qed.

Lemma same_deps_status a b :
  same_form a b → same_deps a b = bool_decide (status a = status b).
Proof.
  intros Hf. unfold same_deps.
  pose proof (post_deps_status a b Hf). pose proof (countdown_deps_status a b Hf).
  repeat case_bool_decide; simpl; tauto.
Qed.

Lemma same_deps_refl a : same_deps a a = true.
Proof. unfold same_deps. by rewrite !bool_decide_eq_true_2. Qed.

Lemma settle_n_settled n prev cur : settle_n (2 + n) prev cur = settled prev cur.
Proof.
  unfold settled. cbn [Nat.add settle_n].
  set (c1 := if bool_decide (countdown_deps prev = countdown_deps cur) then cur
             else countdown_effect cur).
  change (run_effects prev cur)
    with (if bool_decide (post_deps prev = post_deps cur) then c1
          else post_effect c1).
  assert (same_form c1 cur ∧ status c1 = status cur) as [Hc1 Hs1].
  { subst c1. case_bool_decide; [split; [apply same_form_refl|done]|].
    split; [apply countdown_effect_form | apply countdown_effect_status]. }
  case_bool_decide as Hpost.
  - rewrite same_deps_status by by apply same_form_sym.
    by rewrite bool_decide_eq_true_2 by congruence.
  - set (next := post_effect c1).
    assert (same_form next cur) as Hnext.
    { eapply same_form_trans; [apply post_effect_form | done]. }
    rewrite same_deps_status by by apply same_form_sym.
    rewrite (bool_decide_ext (status cur = status next) (status next = status cur))
      by done.
    case_bool_decide as Hst; [done|].
    assert (run_effects cur next = countdown_effect next) as ->.
    { assert (countdown_deps cur ≠ countdown_deps next) as Hcd.
      { rewrite countdown_deps_status by by apply same_form_sym. congruence. }
      assert (post_deps cur ≠ post_deps next) as Hpd.
      { rewrite post_deps_status by by apply same_form_sym. congruence. }
      unfold run_effects.
      rewrite (bool_decide_eq_false_2 _ Hcd), (bool_decide_eq_false_2 _ Hpd).
      rewrite countdown_effect_interval, post_effect_setIntervalOn.
      subst next. by rewrite post_effect_idem. }
    destruct (same_deps next (countdown_effect next)); [done|].
    destruct n; [done|]. cbn [settle_n].
    assert (run_effects next (countdown_effect next) = countdown_effect next) as ->.
    { assert (countdown_deps next = countdown_deps (countdown_effect next)) as Hcd.
      { apply countdown_deps_status; [apply same_form_sym, countdown_effect_form|].
        by rewrite countdown_effect_status. }
      assert (post_deps next = post_deps (countdown_effect next)) as Hpd.
      { apply post_deps_status; [apply same_form_sym, countdown_effect_form|].
        by rewrite countdown_effect_status. }
      unfold run_effects.
      by rewrite (bool_decide_eq_true_2 _ Hcd), (bool_decide_eq_true_2 _ Hpd). }
    by rewrite same_deps_refl.
Qed.

Lemma settle_settled prev cur : settle prev cur = settled prev cur.
Proof. apply (settle_n_settled 0). Qed.

(** More rounds change nothing: the effects have settled after two. *)
Lemma settle_n_stable n prev cur : settle_n (2 + n) prev cur = settle prev cur.
Proof. by rewrite settle_n_settled, settle_settled. Qed.

Lemma settled_eq prev cur :
  settled prev cur
  = let next := after_post_effect prev cur in
    setIntervalOn
      (if bool_decide (countdown_deps prev = countdown_deps cur)
          && bool_decide (status next = status cur)
       then interval cur
       else bool_decide (status next = Running ∧ deadline cur ≠ None))
      next.
Proof.
  unfold settled, after_post_effect.
  rewrite !countdown_effect_interval.
  destruct (bool_decide (post_deps prev = post_deps cur)).
  - rewrite (bool_decide_eq_true_2 (status cur = status cur)) by done.
    rewrite andb_true_r. by destruct (bool_decide _), cur.
  - destruct (bool_decide (countdown_deps prev = countdown_deps cur)); cbn [andb].
    + destruct (post_effect_form cur) as (_ & Hd & _).
      case_bool_decide; [|by rewrite Hd].
      assert (interval (post_effect cur) = interval cur) as <-
        by (post_effect_cases cur; done).
      by destruct (post_effect cur).
    + rewrite post_effect_setIntervalOn.
      destruct (post_effect_form cur) as (_ & Hd & _).
      change (status (setIntervalOn ?b ?x)) with (status x).
      change (deadline (setIntervalOn ?b ?x)) with (deadline x).
      rewrite Hd.
      case_bool_decide as Hst; [rewrite Hst|]; by destruct (post_effect cur).
Qed.

Lemma after_post_effect_form prev cur : same_form (after_post_effect prev cur) cur.
Proof.
  unfold after_post_effect. case_bool_decide;
    [apply same_form_refl | apply post_effect_form].
Qed.

Lemma after_post_effect_inert prev cur :
  post_inert cur → after_post_effect prev cur = cur.
Proof.
  intros. unfold after_post_effect. case_bool_decide; [done|].
  by apply post_effect_inert.
Qed.


(** The projections of a settled render. *)
Lemma settled_form prev cur : same_form (settled prev cur) cur.
Proof.
  rewrite settled_eq. cbn zeta.
  eapply same_form_trans; [|apply after_post_effect_form].
  repeat split.
Qed.

Lemma settled_status prev cur :
  status (settled prev cur) = status (after_post_effect prev cur).
Proof. by rewrite settled_eq. Qed.

Lemma settled_error prev cur :
  error (settled prev cur) = error (after_post_effect prev cur).
Proof. by rewrite settled_eq. Qed.

Lemma settled_network prev cur :
  network (settled prev cur) = network (after_post_effect prev cur).
Proof. by rewrite settled_eq. Qed.

Lemma settled_inflight prev cur :
  inflight (settled prev cur) = inflight (after_post_effect prev cur).
Proof. by rewrite settled_eq. Qed.

Lemma settled_interval prev cur :
  interval (settled prev cur)
  = if bool_decide (countdown_deps prev = countdown_deps cur)
       && bool_decide (status (after_post_effect prev cur) = status cur)
    then interval cur
    else bool_decide (status (after_post_effect prev cur) = Running
                      ∧ deadline cur ≠ None).
Proof. by rewrite settled_eq. Qed.

(** Nothing to do for the effects when no dependency changed. *)
Lemma settled_quiet prev cur :
  countdown_deps prev = countdown_deps cur → post_deps prev = post_deps cur →
  settled prev cur = cur.
Proof.
  intros Hc Hp. unfold settled. by rewrite !bool_decide_eq_true_2.
Qed.

(** ** Events *)

Ltac unfold_handlers :=
  unfold handle, handleKeyDown in *;
  unfold startTimer, cancelTimer, resetAfterFinish, togglePause,
    flushTimer, flushTimer_settled, postToBeeminder_settled, saveSettings,
    refreshGoals, refreshGoals_settled, interval_callback,
    fetch, setItem, removeItem in *.

(** Boolean tests in the hypotheses, as propositions. *)
Ltac bool_hyps :=
  repeat match goal with
  | H : _ && _ = true |- _ => apply andb_true_iff in H as [? ?]
  | H : _ || _ = false |- _ => apply orb_false_iff in H as [? ?]
  | H : negb _ = true |- _ => apply negb_true_iff in H
  | H : negb _ = false |- _ => apply negb_false_iff in H
  | H : bool_decide _ = true |- _ => apply bool_decide_eq_true in H
  | H : bool_decide _ = false |- _ => apply bool_decide_eq_false in H
  | H : running _ = true |- _ => unfold running in H
  | H : running _ = false |- _ => unfold running in H
  | H : empty _ = true |- _ => unfold empty in H
  | H : empty _ = false |- _ => unfold empty in H
  | H : (_ <=? _) = true |- _ => apply Z.leb_le in H
  | H : (_ <=? _) = false |- _ => apply Z.leb_gt in H
  end.

Lemma empty_false s : s ≠ "" → empty s = false.
Proof. intros. unfold empty. by apply bool_decide_eq_false_2. Qed.

Lemma empty_true s : s = "" → empty s = true.
Proof. intros. unfold empty. by apply bool_decide_eq_true_2. Qed.

Lemma not_missing w :
  ¬ missing w ↔ username w ≠ "" ∧ authToken w ≠ "" ∧ goalSlug w ≠ "".
Proof. unfold missing. tauto. Qed.

Lemma str_or_empty s : str_or s "" = s.
Proof. unfold str_or, empty. by case_bool_decide. Qed.

Lemma fire_settled e w : fire e w = settled w (handle e w).
Proof. apply settle_settled. Qed.

Lemma fire_form e w : same_form (fire e w) (handle e w).
Proof. rewrite fire_settled. apply settled_form. Qed.

Lemma fire_remaining e w : remaining (fire e w) = remaining (handle e w).
Proof. rewrite fire_settled. by destruct (settled_form w (handle e w)) as (-> & _). Qed.

Lemma fire_deadline e w : deadline (fire e w) = deadline (handle e w).
Proof. rewrite fire_settled. by destruct (settled_form w (handle e w)) as (_ & -> & _). Qed.

Lemma fire_inert e w :
  post_inert (handle e w) →
  status (fire e w) = status (handle e w)
  ∧ error (fire e w) = error (handle e w)
  ∧ network (fire e w) = network (handle e w)
  ∧ inflight (fire e w) = inflight (handle e w).
Proof.
  intros Hi. rewrite fire_settled.
  rewrite settled_status, settled_error, settled_network, settled_inflight.
  by rewrite after_post_effect_inert.
Qed.

Lemma fire_quiet e w :
  countdown_deps w = countdown_deps (handle e w) →
  post_deps w = post_deps (handle e w) →
  fire e w = handle e w.
Proof. intros. rewrite fire_settled. by apply settled_quiet. Qed.

Lemma fire_Elapse ms w : fire (Elapse ms) w = setClock (clock w + ms) w.
Proof. by apply fire_quiet. Qed.

(** ** Sessions *)


Lemma mount_form storage now sent :
  same_form (mount storage now sent) (load_effect (first_render storage now sent)).
Proof. unfold mount. rewrite settle_settled. apply settled_form. Qed.

Lemma run_invariant (P : World → Prop) :
  (∀ e w, P w → enabled e w = true → P (fire e w)) →
  ∀ es w w', P w → run es w = Some w' → P w'.
Proof.
  intros Hstep es. induction es as [|e es IH]; intros w w' Hw Hrun.
  - by injection Hrun as <-.
  - cbn [run] in Hrun. unfold step in Hrun.
    destruct (enabled e w) eqn:He; [|done].
    eapply IH; [|done]. by apply Hstep.
Qed.

Lemma reachable_invariant (P : World → Prop) :
  (∀ now, P (fresh_page now)) →
  (∀ e w, P w → enabled e w = true → P (fire e w)) →
  (∀ w, P w → P (reload w)) →
  ∀ w, reachable w → P w.
Proof. intros Hinit Hstep Hreload w Hw. induction Hw; eauto. Qed.

Lemma run_reachable es w w' : reachable w → run es w = Some w' → reachable w'.
Proof.
  intros Hw. apply (run_invariant reachable); [|done].
  intros e u Hu He. by apply reach_step.
Qed.

Lemma reachable_after es now :
  is_Some (run es (fresh_page now)) → reachable (after es now).
Proof.
  intros [w Hw]. unfold after. rewrite Hw.
  eapply run_reachable; [apply reach_fresh | done].
Qed.

(** ** Invariants *)

Lemma settled_running_inv prev cur :
  running_inv prev → running_inv (settled prev cur).
Proof.
  unfold running_inv. intros IH.
  destruct (settled_form prev cur) as (-> & _).
  rewrite settled_status. unfold after_post_effect.
  case_bool_decide as Hdeps.
  - apply post_deps_inv in Hdeps as [<- <-]. done.
  - post_effect_cases cur; [|done..].
    intros Hs. unfold post_inert in *. rewrite Hs in *. intuition congruence.
Qed.

Lemma handle_interval e w : e ≠ Tick → interval (handle e w) = interval w.
Proof.
  intros He. destruct e; try done; unfold_handlers; repeat case_match; done.
Qed.

Lemma tick_interval w :
  interval (interval_callback w) = interval w
  ∨ interval (interval_callback w) = false
    ∧ remaining (interval_callback w) = Some 0.
Proof.
  unfold interval_callback. destruct (deadline w) as [d|]; [|by left].
  destruct (Z.leb_spec (Z.max 0 (round_div_1000 (d - clock w))) 0) as [Hle|Hgt];
    [right | by left].
  cbn. split; [done|]. f_equal. lia.
Qed.

Lemma tick_deps w :
  countdown_deps (interval_callback w) = countdown_deps w.
Proof.
  unfold interval_callback. repeat case_match; done.
Qed.

Lemma fire_ticking_inv e w :
  ticking_inv w → running_inv w → enabled e w = true → ticking_inv (fire e w).
Proof.
  unfold ticking_inv. intros IH IHr He. rewrite fire_settled.
  destruct (settled_form w (handle e w)) as (_ & Hd & _).
  rewrite settled_interval, settled_status, Hd.
  destruct (decide (countdown_deps w = countdown_deps (handle e w))) as [Hcd|Hcd];
    [|by rewrite (bool_decide_eq_false_2 _ Hcd)].
  destruct (decide (status (after_post_effect w (handle e w)) = status (handle e w)))
    as [Hst|Hst]; [|by rewrite (bool_decide_eq_false_2 _ Hst), andb_false_r].
  rewrite (bool_decide_eq_true_2 _ Hcd), (bool_decide_eq_true_2 _ Hst). cbn [andb].
  rewrite Hst. apply countdown_deps_inv in Hcd as [Hs Hdl].
  rewrite <- Hs, <- Hdl, <- IH.
  assert (e = Tick ∨ e ≠ Tick) as [->|Hne]
    by (destruct e; (by left) || (by right)); [|by apply handle_interval].
  cbn [handle] in *. destruct (tick_interval w) as [|[_ Hzero]]; [done|].
  exfalso. cbn [enabled] in He. rewrite IH in He.
  apply bool_decide_eq_true in He as [Hrun _].
  specialize (IHr Hrun).
  unfold after_post_effect in Hst.
  destruct (decide (post_deps w = post_deps (interval_callback w))) as [Hpd|Hpd].
  { apply post_deps_inv in Hpd as [Hrem _]. congruence. }
  rewrite (bool_decide_eq_false_2 _ Hpd) in Hst.
  assert (¬ post_inert (interval_callback w)) as Hin.
  { unfold post_inert. rewrite Hzero, <- Hs, Hrun. intuition congruence. }
  revert Hst. rewrite <- Hs, Hrun.
  destruct (decide (missing (interval_callback w))).
  - by rewrite post_effect_missing.
  - by rewrite post_effect_posts.
Qed.

Lemma load_effect_interval w : interval (load_effect w) = interval w.
Proof. unfold load_effect. by repeat case_match. Qed.

(** Whatever [localStorage] holds, the page comes up in order. *)
Lemma mount_session_inv storage now sent : session_inv (mount storage now sent).
Proof.
  unfold mount. rewrite settle_settled.
  set (p := first_render storage now sent). split.
  - unfold ticking_inv.
    destruct (settled_form p (load_effect p)) as (_ & Hd & _).
    rewrite settled_interval, settled_status, Hd.
    destruct (decide (countdown_deps p = countdown_deps (load_effect p)))
      as [Hcd|Hcd]; [|by rewrite (bool_decide_eq_false_2 _ Hcd)].
    destruct (decide (status (after_post_effect p (load_effect p))
                      = status (load_effect p))) as [Hst|Hst];
      [|by rewrite (bool_decide_eq_false_2 _ Hst), andb_false_r].
    rewrite (bool_decide_eq_true_2 _ Hcd), (bool_decide_eq_true_2 _ Hst).
    cbn [andb]. rewrite Hst, load_effect_interval.
    apply countdown_deps_inv in Hcd as [<- _]. symmetry.
    apply bool_decide_eq_false_2. by intros [? _].
  - by apply settled_running_inv.
Qed.

Lemma reachable_session_inv w : reachable w → session_inv w.
Proof.
  apply reachable_invariant.
  - intros now. exact (mount_session_inv ∅ now []).
  - intros e u [Ht Hr] He. split.
    + by apply fire_ticking_inv.
    + rewrite fire_settled. by apply settled_running_inv.
  - intros u _. exact (mount_session_inv (localStorage u) (clock u) (network u)).
Qed.







(** ** Starting a timer *)

(** C4.  For every selected duration [d > 0], [Start] with a goal slug, a
    username and a token that are not empty sets [status] to [Running] and
    [remaining] to [d], which is what is read right after, effects included,
    and sets [deadline] to now plus [d]: [Date.now()] counts milliseconds and
    [d] seconds, so the number stored is [now + d * 1000]. *)
Theorem start_sets_remaining_and_deadline (w : World) (d : Z) :
  selectedDuration w = d → 0 < d →
  goalSlug w ≠ "" → username w ≠ "" → authToken w ≠ "" →
  let w' := fire ClickStart w in
  status w' = Running
  ∧ remaining w' = Some d
  ∧ deadline w' = Some (clock w + d * 1000).
Proof.
  intros Hd Hpos Hg Hu Ht w'. subst w'. rewrite fire_settled.
  destruct (settled_form w (handle ClickStart w)) as (Hr & Hdl & _).
  rewrite settled_status, Hr, Hdl.
  assert (handle ClickStart w = startTimer w) as -> by done.
  assert (remaining (startTimer w) = Some d ∧ status (startTimer w) = Running
          ∧ deadline (startTimer w) = Some (clock w + d * 1000)) as (Hr' & Hs' & Hd').
  { unfold startTimer. rewrite !empty_false by done. cbn. by rewrite Hd. }
  rewrite after_post_effect_inert; [done|].
  left. rewrite Hr'. intros [=]. lia.
Qed.

Lemma start_sets_remaining_and_deadline_witness :
  let w := setSelectedDuration 1200 (setGoalSlug "read" (setAuthToken "tok"
             (setUsername "alice" (fresh_page 0)))) in
  status (fire ClickStart w) = Running
  ∧ remaining (fire ClickStart w) = Some 1200
  ∧ deadline (fire ClickStart w) = Some (clock w + 1200 * 1000).
Proof.
  intros w. apply (start_sets_remaining_and_deadline w 1200); [reflexivity | lia | done..].
Defined.

Lemma startTimer_missing w :
  missing w →
  startTimer w
  = setError (Some (if empty (goalSlug w) then "You must select a goal first."
                    else "Username and auth token are required to start."))
      (setStatus Error w).
Proof.
  intros Hm. unfold startTimer.
  destruct (empty (goalSlug w)) eqn:Hg; [done|].
  assert (empty (username w) || empty (authToken w) = true) as ->; [|done].
  apply bool_decide_eq_false in Hg.
  destruct Hm as [Hu|[Ht|?]]; [| |done].
  - by rewrite (empty_true _ Hu).
  - by rewrite (empty_true _ Ht), orb_true_r.
Qed.

(** C8.  In every state where the username, the token or the goal slug is
    empty, [Start] sets [status] to [Error] with one of the validation
    messages (the one of [startTimer] unless a countdown sits at zero, where
    the post effect words the same complaint) and no request is sent: the
    requests sent and the fetches in flight are those of before. *)
Theorem start_with_missing_field (w : World) :
  missing w →
  let w' := fire ClickStart w in
  status w' = Error
  ∧ (∃ message, error w' = Some message ∧ message ∈ validation_messages)
  ∧ (remaining w ≠ Some 0 →
     error w' = Some (if empty (goalSlug w) then "You must select a goal first."
                      else "Username and auth token are required to start."))
  ∧ network w' = network w
  ∧ inflight w' = inflight w.
Proof.
  intros Hm w'. subst w'. rewrite fire_settled.
  rewrite settled_status, settled_error, settled_network, settled_inflight.
  assert (handle ClickStart w = startTimer w) as -> by done.
  rewrite (startTimer_missing w Hm).
  set (c := setError _ (setStatus Error w)).
  assert (∀ b : bool, (if b then "You must select a goal first."
                       else "Username and auth token are required to start.")
                      ∈ validation_messages) as Hin.
  { intros []; unfold validation_messages; set_solver. }
  unfold after_post_effect. case_bool_decide as Hdeps.
  { split_and!; [done | by eexists | done..]. }
  destruct (decide (post_inert c)) as [Hi|Hi].
  - rewrite post_effect_inert by done.
    split_and!; [done | by eexists | done..].
  - rewrite post_effect_missing by done.
    split_and!; [done | | | done..].
    + eexists; split; [done|]. unfold validation_messages. set_solver.
    + intros Hr. destruct Hi. by left.
Qed.

Lemma start_with_missing_field_witness :
  let w := setUsername "alice" (fresh_page 0) in
  status (fire ClickStart w) = Error
  ∧ (∃ message, error (fire ClickStart w) = Some message
                ∧ message ∈ validation_messages)
  ∧ (remaining w ≠ Some 0 →
     error (fire ClickStart w)
     = Some (if empty (goalSlug w) then "You must select a goal first."
             else "Username and auth token are required to start."))
  ∧ network (fire ClickStart w) = network w
  ∧ inflight (fire ClickStart w) = inflight w.
Proof.
  intros w. apply (start_with_missing_field w). right; left. reflexivity.
Defined.

(** ** The countdown *)

Lemma round_div_1000_nearest ms :
  -500 ≤ ms - 1000 * round_div_1000 ms < 500.
Proof.
  unfold round_div_1000.
  pose proof (Z.div_mod (ms + 500) 1000 ltac:(lia)).
  pose proof (Z.mod_pos_bound (ms + 500) 1000 ltac:(lia)). lia.
Qed.

(** C2.  In a state the page can reach where [status] is [Running] with a
    deadline [d], the interval is installed, and its tick sets [remaining] to
    [max(0, round((d - now) / 1000))], [round] being the nearest integer:
    whatever [remaining] was before, so nothing is decremented, and without
    touching the deadline.  The interval stays exactly while that number is
    positive, and after any event that leaves [status] other than [Running]
    it is gone. *)
Theorem countdown_tick (w : World) (d : Z) :
  reachable w → status w = Running → deadline w = Some d →
  let secsLeft := Z.max 0 (round_div_1000 (d - clock w)) in
  enabled Tick w = true
  ∧ -500 ≤ (d - clock w) - 1000 * round_div_1000 (d - clock w) < 500
  ∧ remaining (fire Tick w) = Some secsLeft
  ∧ (∀ r, remaining (fire Tick (setRemaining r w)) = Some secsLeft)
  ∧ deadline (fire Tick w) = Some d
  ∧ interval (fire Tick w) = bool_decide (0 < secsLeft)
  ∧ (∀ e, enabled e w = true → status (fire e w) ≠ Running →
          interval (fire e w) = false).
Proof.
  intros Hreach Hrun Hd secsLeft.
  destruct (reachable_session_inv w Hreach) as [Htick Hnz].
  assert (enabled Tick w = true) as Hen.
  { cbn [enabled]. rewrite Htick. apply bool_decide_eq_true_2. by rewrite Hd. }
  assert (∀ u, deadline u = Some d → clock u = clock w →
               remaining (fire Tick u) = Some secsLeft
               ∧ deadline (fire Tick u) = Some d) as Hcallback.
  { intros u Hu Hc. rewrite fire_remaining, fire_deadline. cbn [handle].
    unfold interval_callback. rewrite Hu, Hc. fold secsLeft.
    by destruct (secsLeft <=? 0). }
  destruct (Hcallback w Hd eq_refl) as [Hrem Hdl].
  split; [done|]. split; [apply round_div_1000_nearest|]. split; [done|].
  split; [intros r; by apply Hcallback|]. split; [done|]. split.
  - destruct (reachable_session_inv (fire Tick w)) as [Htick' Hnz'];
      [by apply reach_step|].
    rewrite Htick', Hdl.
    destruct (decide (0 < secsLeft)) as [Hpos|Hzero].
    + rewrite (bool_decide_eq_true_2 _ Hpos). apply bool_decide_eq_true_2.
      split; [|done]. rewrite fire_settled, settled_status.
      rewrite after_post_effect_inert.
      * cbn [handle]. unfold interval_callback. rewrite Hd. fold secsLeft.
        by destruct (secsLeft <=? 0).
      * left. rewrite <- fire_remaining, Hrem. intros [=]. lia.
    + rewrite (bool_decide_eq_false_2 _ Hzero). apply bool_decide_eq_false_2.
      intros [Hr _]. apply Hnz' in Hr. apply Hr. rewrite Hrem. f_equal. lia.
  - intros e He Hst.
    destruct (reachable_session_inv (fire e w)) as [Htick' _];
      [by apply reach_step|].
    rewrite Htick'. apply bool_decide_eq_false_2. tauto.
Qed.

Lemma countdown_tick_witness :
  let w := after (signed_in ++ [ClickStart; Elapse 1000]) 0 in
  let secsLeft := Z.max 0 (round_div_1000 (1200000 - clock w)) in
  enabled Tick w = true
  ∧ -500 ≤ (1200000 - clock w) - 1000 * round_div_1000 (1200000 - clock w) < 500
  ∧ remaining (fire Tick w) = Some secsLeft
  ∧ (∀ r, remaining (fire Tick (setRemaining r w)) = Some secsLeft)
  ∧ deadline (fire Tick w) = Some 1200000
  ∧ interval (fire Tick w) = bool_decide (0 < secsLeft)
  ∧ (∀ e, enabled e w = true → status (fire e w) ≠ Running →
          interval (fire e w) = false).
Proof.
  intros w. apply (countdown_tick w 1200000).
  - apply reachable_after. vm_compute. eexists. reflexivity.
  - vm_compute. reflexivity.
  - vm_compute. reflexivity.
Defined.

(** ** The post at zero *)

(** The tick that brings a running countdown to zero sends one datapoint,
    [selectedDuration / 60] minutes, and [status] is [Posting]. *)
Lemma countdown_end_posts_once (w : World) (d : Z) :
  reachable w → status w = Running → deadline w = Some d →
  round_div_1000 (d - clock w) ≤ 0 → ¬ missing w →
  let w' := fire Tick w in
  remaining w' = Some 0 ∧ status w' = Posting ∧ error w' = None
  ∧ network w' = network w ++ [POST_datapoint (session_datapoint w)]
  ∧ inflight w' = inflight w ++ [AfterPost]
  ∧ interval w' = false.
Proof.
  intros Hreach Hrun Hd Hround Hm w'.
  destruct (reachable_session_inv w Hreach) as [Htick Hnz]. specialize (Hnz Hrun).
  assert (handle Tick w = setIntervalOn false (setRemaining (Some 0) w)) as Hh.
  { cbn [handle]. unfold interval_callback. rewrite Hd.
    replace (Z.max 0 _) with 0 by lia. done. }
  subst w'. rewrite fire_settled, Hh.
  set (c := setIntervalOn false (setRemaining (Some 0) w)).
  assert (post_deps w ≠ post_deps c) as Hpd.
  { intros Heq. apply post_deps_inv in Heq as [Heq _]. by rewrite Heq in Hnz. }
  assert (post_effect c = postToBeeminder c) as Hpost.
  { apply post_effect_posts; [|done].
    unfold post_inert. cbn. rewrite Hrun. intuition congruence. }
  destruct (settled_form w c) as (-> & _).
  rewrite settled_status, settled_error, settled_network, settled_inflight,
    settled_interval.
  unfold after_post_effect. rewrite (bool_decide_eq_false_2 _ Hpd), Hpost.
  cbn. rewrite Hrun.
  split_and!; try done.
  rewrite andb_false_r. apply bool_decide_eq_false_2. intros [? _]; done.
Qed.

(** A success ends the session: [Finished], the record removed, nothing
    more sent. *)
Lemma post_success_finishes (w : World) (i : nat) (response : Response) :
  inflight w !! i = Some AfterPost →
  failure "Beeminder error" response = None →
  let w' := fire (Respond i response) w in
  status w' = Finished ∧ network w' = network w
  ∧ localStorage w' !! TIMER_STATE_KEY = None.
Proof.
  intros Hi Hok w'. subst w'.
  assert (handle (Respond i response) w
          = removeItem TIMER_STATE_KEY
              (setStatus Finished (setInflight (delete i (inflight w)) w))) as Hh.
  { cbn [handle]. rewrite Hi. unfold postToBeeminder_settled. by rewrite Hok. }
  destruct (fire_inert (Respond i response) w) as (-> & _ & -> & _).
  { rewrite Hh. right; by right. }
  destruct (fire_form (Respond i response) w)
    as (_ & _ & _ & _ & _ & _ & _ & _ & _ & -> & _).
  rewrite Hh. split_and!; [done..|]. apply lookup_delete_eq.
Qed.

(** A failure does not: [status] goes to [Error], which the guard of the post
    effect does not exclude, so with [remaining] still zero it posts again. *)
Lemma post_failure_posts_again (w : World) (i : nat) (response : Response)
    (message : string) :
  inflight w !! i = Some AfterPost →
  failure "Beeminder error" response = Some message →
  status w = Posting → remaining w = Some 0 → ¬ missing w →
  let w' := fire (Respond i response) w in
  status w' = Posting ∧ error w' = None
  ∧ network w' = network w ++ [POST_datapoint (session_datapoint w)].
Proof.
  intros Hi Hfail Hs Hr Hm w'. subst w'.
  assert (handle (Respond i response) w
          = setError (Some message)
              (setStatus Error (setInflight (delete i (inflight w)) w))) as Hh.
  { cbn [handle]. rewrite Hi. unfold postToBeeminder_settled. by rewrite Hfail. }
  rewrite fire_settled, Hh.
  set (c := setError _ _).
  assert (post_deps w ≠ post_deps c) as Hpd.
  { intros Heq. apply post_deps_inv in Heq as [_ Heq]. by rewrite Hs in Heq. }
  assert (post_effect c = postToBeeminder c) as Hpost.
  { apply post_effect_posts; [|done].
    unfold post_inert. cbn. rewrite Hr. intuition congruence. }
  rewrite settled_status, settled_error, settled_network.
  unfold after_post_effect. by rewrite (bool_decide_eq_false_2 _ Hpd), Hpost.
Qed.

(** C1.  Twenty minutes are selected and the countdown runs out with
    username, token and goal slug present: [remaining] is zero, [status] is
    [Posting] and one datapoint of value [1200 / 60 = 20] has been sent.  The
    server answers 500.  The claim has exactly one post attempt; here the
    same datapoint has been sent a second time and [status] is [Posting]
    again, the error gone. *)
Theorem failed_post_is_sent_again :
  let w := after (signed_in ++ [ClickStart; Elapse 1200000; Tick]) 0 in
  let response := HttpResponse 500 "Internal Server Error" (inl "") in
  let w' := fire (Respond 0 response) w in
  let datapoint :=
    {| dp_username := "alice"; dp_goalSlug := "read"; dp_auth_token := "tok";
       dp_value := (inject_Z 1200 / 60)%Q;
       dp_comment := DefaultComment (inject_Z 1200 / 60)%Q;
       dp_timestamp := 1200 |} in
  (run (signed_in ++ [ClickStart; Elapse 1200000; Tick]) (fresh_page 0) = Some w
   ∧ remaining w = Some 0 ∧ ¬ missing w ∧ status w = Posting
   ∧ posts (network w) = [datapoint] ∧ (dp_value datapoint == 20)%Q)
  ∧ (enabled (Respond 0 response) w = true
     ∧ status w' = Posting ∧ error w' = None
     ∧ posts (network w') = [datapoint; datapoint]).
Proof.
  intros w response w' datapoint. split.
  - split; [vm_compute; reflexivity|].
    split; [vm_compute; reflexivity|].
    split; [vm_compute; intuition discriminate|].
    split; [vm_compute; reflexivity|].
    split; [vm_compute; reflexivity|]. reflexivity.
  - repeat split; vm_compute; reflexivity.
Qed.

(** ** Pause and resume *)

Lemma togglePause_deps w :
  post_deps w = post_deps (togglePause w).
Proof. unfold togglePause. by repeat case_match. Qed.

Lemma fire_ClickPause_status w : status (fire ClickPause w) = status w.
Proof.
  rewrite fire_settled, settled_status. unfold after_post_effect.
  rewrite bool_decide_eq_true_2 by apply togglePause_deps.
  cbn [handle]. unfold togglePause. by repeat case_match.
Qed.

(** C5.  In a state the page can reach, running, unpaused, with
    [remaining = r]:
    pausing keeps [remaining] at [r], clears the deadline and stops the
    ticks; resuming, however long after, sets the deadline to now plus [r]
    (seconds, so [now + r * 1000]) and leaves [remaining] at [r]; and a tick
    up to half a second after resuming computes [max(0, r)], which is [r]
    again for a countdown that is not negative. *)
Theorem pause_then_resume (w : World) (r : Z) :
  reachable w → status w = Running → paused w = false → remaining w = Some r →
  let p := fire ClickPause w in
  (remaining p = Some r ∧ deadline p = None ∧ paused p = true
   ∧ enabled Tick p = false)
  ∧ ∀ wait, 0 ≤ wait →
      let q := fire ClickPause (fire (Elapse wait) p) in
      (clock q = clock w + wait ∧ deadline q = Some (clock q + r * 1000)
       ∧ remaining q = Some r ∧ paused q = false ∧ status q = Running)
      ∧ ∀ lag, 0 ≤ lag ≤ 500 →
          remaining (fire Tick (fire (Elapse lag) q)) = Some (Z.max 0 r)
          ∧ (0 ≤ r → remaining (fire Tick (fire (Elapse lag) q)) = Some r).
Proof.
  intros Hreach Hrun Hp Hr p.
  assert (handle ClickPause w
          = setItem TIMER_STATE_KEY
              (JTimer {| ts_status := status w; ts_remaining := r;
                         ts_deadline := deadline w; ts_paused := true;
                         ts_goalSlug := goalSlug w;
                         ts_selectedDuration := selectedDuration w;
                         ts_comment := comment w |})
              (setPaused true (setDeadline None w))) as Hpause.
  { cbn [handle]. unfold togglePause. by rewrite Hr, Hp. }
  assert (remaining p = Some r ∧ deadline p = None ∧ paused p = true
          ∧ status p = Running ∧ clock p = clock w) as (Hr1 & Hd1 & Hp1 & Hs1 & Hc1).
  { subst p. rewrite fire_ClickPause_status.
    destruct (fire_form ClickPause w)
      as (-> & -> & -> & _ & _ & _ & _ & _ & _ & _ & -> & _).
    by rewrite Hpause. }
  assert (reachable p) as Hreach1.
  { apply reach_step; [done|]. cbn [enabled]. by apply bool_decide_eq_true_2. }
  split.
  { split_and!; [done..|]. cbn [enabled].
    destruct (reachable_session_inv p Hreach1) as [-> _].
    apply bool_decide_eq_false_2. rewrite Hd1. tauto. }
  clearbody p. intros wait Hwait q.
  set (p' := fire (Elapse wait) p) in *.
  assert (remaining p' = Some r ∧ paused p' = true ∧ status p' = Running
          ∧ clock p' = clock w + wait) as (Hr2 & Hp2 & Hs2 & Hc2).
  { subst p'. rewrite fire_Elapse. cbn. by rewrite Hc1. }
  clearbody p'.
  assert (handle ClickPause p'
          = setItem TIMER_STATE_KEY
              (JTimer {| ts_status := status p'; ts_remaining := r;
                         ts_deadline := deadline p'; ts_paused := false;
                         ts_goalSlug := goalSlug p';
                         ts_selectedDuration := selectedDuration p';
                         ts_comment := comment p' |})
              (setPaused false (setDeadline (Some (clock p' + r * 1000)) p')))
    as Hresume.
  { cbn [handle]. unfold togglePause. by rewrite Hr2, Hp2. }
  assert (clock q = clock w + wait ∧ deadline q = Some (clock q + r * 1000)
          ∧ remaining q = Some r ∧ paused q = false ∧ status q = Running)
    as (Hc3 & Hd3 & Hr3 & Hp3 & Hs3).
  { subst q. rewrite fire_ClickPause_status.
    destruct (fire_form ClickPause p')
      as (-> & -> & -> & _ & _ & _ & _ & _ & _ & _ & -> & _).
    rewrite Hresume. cbn. by rewrite Hc2. }
  clearbody q. split; [done|].
  intros lag Hlag.
  assert (remaining (fire Tick (fire (Elapse lag) q)) = Some (Z.max 0 r)) as Htick.
  { rewrite fire_remaining, fire_Elapse. cbn [handle]. unfold interval_callback.
    cbn. rewrite Hd3.
    assert (round_div_1000 (clock q + r * 1000 - (clock q + lag)) = r) as ->.
    { unfold round_div_1000.
      symmetry. apply (Z.div_unique _ _ _ (500 - lag)); lia. }
    by destruct (_ <=? _). }
  split; [done|]. intros Hpos. rewrite Htick. f_equal. lia.
Qed.

Lemma pause_then_resume_witness :
  let w := after (signed_in ++ [ClickStart; Elapse 60000; Tick]) 0 in
  let p := fire ClickPause w in
  (remaining p = Some 1140 ∧ deadline p = None ∧ paused p = true
   ∧ enabled Tick p = false)
  ∧ ∀ wait, 0 ≤ wait →
      let q := fire ClickPause (fire (Elapse wait) p) in
      (clock q = clock w + wait ∧ deadline q = Some (clock q + 1140 * 1000)
       ∧ remaining q = Some 1140 ∧ paused q = false ∧ status q = Running)
      ∧ ∀ lag, 0 ≤ lag ≤ 500 →
          remaining (fire Tick (fire (Elapse lag) q)) = Some (Z.max 0 1140)
          ∧ (0 ≤ 1140 → remaining (fire Tick (fire (Elapse lag) q)) = Some 1140).
Proof.
  intros w. apply (pause_then_resume w 1140).
  - apply reachable_after. vm_compute. eexists. reflexivity.
  - vm_compute. reflexivity.
  - vm_compute. reflexivity.
  - vm_compute. reflexivity.
Defined.

(** ** Flush *)

(** C9, as amended.  When a flush is asked for with nothing elapsed
    ([selectedDuration - remaining = 0]) and the selected duration is
    positive and username, token and goal slug are present, the only thing
    that changes is [flushMessage], set to the text that no time elapsed: no
    request is sent and the rest of the state is as before. *)
Theorem flush_with_nothing_elapsed (w : World) (r : Z) :
  remaining w = Some r → selectedDuration w - r = 0 →
  0 < selectedDuration w → ¬ missing w →
  fire ClickFlush w
  = setFlushMessage (Some (FlushText "No time elapsed to flush.")) w.
Proof.
  intros Hr He Hd Hm. rewrite fire_settled.
  apply not_missing in Hm as (Hu & Ht & Hg).
  assert (handle ClickFlush w
          = setFlushMessage (Some (FlushText "No time elapsed to flush.")) w) as ->.
  { cbn [handle]. unfold flushTimer. rewrite Hr, !empty_false by done.
    rewrite (proj2 (Z.leb_gt _ _)) by lia. cbn [orb].
    by rewrite (proj2 (Z.leb_le _ _)) by lia. }
  by apply settled_quiet.
Qed.

Lemma flush_with_nothing_elapsed_witness :
  let w := fire ClickStart (setSelectedDuration 1200 (setGoalSlug "read"
             (setAuthToken "tok" (setUsername "alice" (fresh_page 0))))) in
  fire ClickFlush w
  = setFlushMessage (Some (FlushText "No time elapsed to flush.")) w.
Proof.
  intros w. apply (flush_with_nothing_elapsed w 1200);
    [reflexivity | reflexivity | reflexivity | ].
  unfold missing. cbn. intuition discriminate.
Defined.

(** Behind the guard of [flushTimer] nothing happens at all, message
    included. *)
Lemma flush_behind_the_guard (w : World) :
  remaining w = None ∨ selectedDuration w ≤ 0 ∨ missing w →
  fire ClickFlush w = w.
Proof.
  intros Hguard.
  assert (handle ClickFlush w = w) as Hh.
  { cbn [handle]. unfold flushTimer.
    destruct (remaining w) as [r|]; [|done].
    destruct Hguard as [?|[Hd|Hm]]; [done| |].
    - by rewrite (proj2 (Z.leb_le _ _) Hd).
    - destruct (selectedDuration w <=? 0); [done|]. cbn [orb].
      by rewrite missing_test, (bool_decide_eq_true_2 _ Hm). }
  rewrite <- Hh at 2. apply fire_quiet; by rewrite Hh.
Qed.

(** C9 as stated fails.  A timer is started with credentials that were typed
    but not saved, and the page is reloaded; or a timer is started on minus
    five minutes.  Either way the flush button is there, nothing has
    elapsed, and no message appears: the guard at the top of [flushTimer]
    returns first. *)
Lemma silent_flush_with_nothing_elapsed :
  (∃ u, run (signed_in ++ [ClickStart]) (fresh_page 0) = Some u
        ∧ let w := reload u in
          enabled ClickFlush w = true ∧ username w = ""
          ∧ remaining w = Some 1200 ∧ selectedDuration w - 1200 = 0
          ∧ fire ClickFlush w = w
          ∧ ¬ spec_flush_nothing_elapsed w)
  ∧ (∃ v, run (signed_in ++ [TypeDuration (Some (-5)); ClickStart])
              (fresh_page 0) = Some v
          ∧ enabled ClickFlush v = true
          ∧ remaining v = Some (-300) ∧ selectedDuration v - (-300) = 0
          ∧ fire ClickFlush v = v
          ∧ ¬ spec_flush_nothing_elapsed v).
Proof.
  split.
  - exists (after (signed_in ++ [ClickStart]) 0).
    split; [vm_compute; reflexivity|]. intros w.
    assert (remaining w = Some 1200) as Hr by (vm_compute; reflexivity).
    assert (selectedDuration w - 1200 = 0) as He by (vm_compute; reflexivity).
    assert (fire ClickFlush w = w) as Hf by (vm_compute; reflexivity).
    split; [vm_compute; reflexivity|]. split; [vm_compute; reflexivity|].
    split; [done|]. split; [done|]. split; [done|].
    intros H. destruct (H 1200 Hr He) as [_ H']. rewrite Hf in H'.
    vm_compute in H'. discriminate.
  - set (v := after (signed_in ++ [TypeDuration (Some (-5)); ClickStart]) 0).
    exists v. split; [vm_compute; reflexivity|].
    assert (remaining v = Some (-300)) as Hr by (vm_compute; reflexivity).
    assert (selectedDuration v - (-300) = 0) as He by (vm_compute; reflexivity).
    assert (fire ClickFlush v = v) as Hf by (vm_compute; reflexivity).
    split; [vm_compute; reflexivity|].
    split; [done|]. split; [done|]. split; [done|].
    intros H. destruct (H (-300) Hr He) as [_ H']. rewrite Hf in H'.
    vm_compute in H'. discriminate.
Qed.

Lemma flushTimer_posts w r :
  remaining w = Some r → 0 < selectedDuration w → ¬ missing w →
  0 < selectedDuration w - r →
  flushTimer w
  = fetch (POST_datapoint (flush_datapoint w (selectedDuration w - r)))
      (AfterFlush (inject_Z (selectedDuration w - r) / 60)%Q)
      (setError None (setStatus Posting w)).
Proof.
  intros Hr Hd Hm He. apply not_missing in Hm as (Hu & Ht & Hg).
  unfold flushTimer. rewrite Hr, !empty_false by done.
  rewrite (proj2 (Z.leb_gt _ _)) by lia. cbn [orb].
  by rewrite (proj2 (Z.leb_gt _ _)) by lia.
Qed.

(** A failed flush, whatever happened since it was sent, touches none of
    [remaining], [deadline], [paused] and [localStorage]. *)
Lemma flush_failure_step (w : World) (i : nat) (value : Q) (response : Response)
    (message : string) :
  inflight w !! i = Some (AfterFlush value) →
  failure "Beeminder error" response = Some message →
  let w' := fire (Respond i response) w in
  remaining w' = remaining w ∧ deadline w' = deadline w
  ∧ paused w' = paused w ∧ localStorage w' = localStorage w.
Proof.
  intros Hi Hfail w'. subst w'.
  destruct (fire_form (Respond i response) w)
    as (-> & -> & -> & _ & _ & _ & _ & _ & _ & -> & _).
  cbn [handle]. rewrite Hi. unfold flushTimer_settled. by rewrite Hfail.
Qed.

(** C10.  A flush is sent from a running state the page can reach, and its
    response, whenever it comes, is a failure: a response that is not [ok] or
    a rejected fetch.  Then [status] is [Error], [error] holds the message of
    the failure, and [remaining], [deadline], [paused] and [localStorage] are
    those of before the flush; no further request is sent. *)
Theorem failed_flush_keeps_the_session (w : World) (r wait : Z)
    (response : Response) (message : string) :
  reachable w → status w = Running →
  remaining w = Some r → 0 < selectedDuration w → ¬ missing w →
  0 < selectedDuration w - r →
  0 ≤ wait → failure "Beeminder error" response = Some message →
  let posted := fire ClickFlush w in
  let w' := fire (Respond (length (inflight w)) response)
              (fire (Elapse wait) posted) in
  (status posted = Posting
   ∧ network posted
     = network w ++ [POST_datapoint (flush_datapoint w (selectedDuration w - r))])
  ∧ status w' = Error
  ∧ error w' = Some message
  ∧ remaining w' = remaining w
  ∧ deadline w' = deadline w
  ∧ paused w' = paused w
  ∧ localStorage w' = localStorage w
  ∧ network w' = network posted.
Proof.
  intros Hreach Hrun Hr Hd Hm He Hwait Hfail posted w'.
  destruct (reachable_session_inv w Hreach) as [_ Hnz]. specialize (Hnz Hrun).
  pose proof (flushTimer_posts w r Hr Hd Hm He) as Hflush.
  set (value := (inject_Z (selectedDuration w - r) / 60)%Q) in *.
  set (request := POST_datapoint _) in *.
  (* the flush goes out *)
  assert (status posted = Posting ∧ network posted = network w ++ [request]
          ∧ inflight posted = inflight w ++ [AfterFlush value]
          ∧ remaining posted = remaining w ∧ deadline posted = deadline w
          ∧ paused posted = paused w ∧ localStorage posted = localStorage w)
    as (Hs1 & Hn1 & Hi1 & Hr1 & Hd1 & Hp1 & Hl1).
  { subst posted.
    destruct (fire_inert ClickFlush w) as (-> & _ & -> & ->).
    { cbn [handle]. rewrite Hflush. right; by left. }
    destruct (fire_form ClickFlush w)
      as (-> & -> & -> & _ & _ & _ & _ & _ & _ & -> & _).
    cbn [handle]. by rewrite Hflush. }
  clearbody posted.
  (* time passes *)
  set (u := fire (Elapse wait) posted) in *.
  assert (status u = Posting ∧ network u = network posted
          ∧ inflight u = inflight w ++ [AfterFlush value]
          ∧ remaining u = remaining w ∧ deadline u = deadline w
          ∧ paused u = paused w ∧ localStorage u = localStorage w)
    as (Hs2 & Hn2 & Hi2 & Hr2 & Hd2 & Hp2 & Hl2).
  { subst u. rewrite fire_Elapse. by cbn. }
  clearbody u.
  (* the response is a failure *)
  assert (handle (Respond (length (inflight w)) response) u
          = setError (Some message)
              (setStatus Error
                 (setInflight (delete (length (inflight w)) (inflight u)) u)))
    as Hh.
  { cbn [handle]. rewrite Hi2, list_lookup_middle by done.
    unfold flushTimer_settled. by rewrite Hfail. }
  subst w'.
  destruct (fire_inert (Respond (length (inflight w)) response) u)
    as (-> & -> & -> & _).
  { rewrite Hh. left. cbn. by rewrite Hr2. }
  destruct (fire_form (Respond (length (inflight w)) response) u)
    as (-> & -> & -> & _ & _ & _ & _ & _ & _ & -> & _).
  rewrite Hh. cbn. by rewrite Hr2, Hd2, Hp2, Hl2, Hn2.
Qed.

Lemma failed_flush_keeps_the_session_witness :
  let w := after (signed_in ++ [ClickStart; Elapse 90000; Tick]) 0 in
  let response := HttpResponse 500 "Internal Server Error" (inl "") in
  let posted := fire ClickFlush w in
  let w' := fire (Respond (length (inflight w)) response)
              (fire (Elapse 300) posted) in
  (status posted = Posting
   ∧ network posted
     = network w ++ [POST_datapoint (flush_datapoint w (selectedDuration w - 1110))])
  ∧ status w' = Error
  ∧ error w' = Some "Beeminder error 500: Internal Server Error"
  ∧ remaining w' = remaining w
  ∧ deadline w' = deadline w
  ∧ paused w' = paused w
  ∧ localStorage w' = localStorage w
  ∧ network w' = network posted.
Proof.
  intros w response.
  apply (failed_flush_keeps_the_session w 1110 300 response
           "Beeminder error 500: Internal Server Error").
  - apply reachable_after. vm_compute. eexists. reflexivity.
  - vm_compute. reflexivity.
  - vm_compute. reflexivity.
  - vm_compute. reflexivity.
  - vm_compute. intuition discriminate.
  - vm_compute. reflexivity.
  - lia.
  - vm_compute. reflexivity.
Defined.

(** ** Back to idle *)


(** Each of the three does lead back to [Idle] and removes the record. *)
Lemma cancel_goes_idle w :
  status (fire ClickCancel w) = Idle
  ∧ localStorage (fire ClickCancel w) !! TIMER_STATE_KEY = None.
Proof.
  destruct (fire_inert ClickCancel w) as (-> & _); [by left|].
  destruct (fire_form ClickCancel w) as (_ & _ & _ & _ & _ & _ & _ & _ & _ & -> & _).
  split; [done | apply lookup_delete_eq].
Qed.

Lemma reset_goes_idle w :
  status (fire ClickReset w) = Idle
  ∧ localStorage (fire ClickReset w) !! TIMER_STATE_KEY = None.
Proof.
  destruct (fire_inert ClickReset w) as (-> & _); [by left|].
  destruct (fire_form ClickReset w) as (_ & _ & _ & _ & _ & _ & _ & _ & _ & -> & _).
  split; [done | apply lookup_delete_eq].
Qed.

Lemma flushed_goes_idle w i r value :
  inflight w !! i = Some (AfterFlush value) →
  failure "Beeminder error" r = None →
  status (fire (Respond i r) w) = Idle
  ∧ localStorage (fire (Respond i r) w) !! TIMER_STATE_KEY = None.
Proof.
  intros Hi Hr.
  assert (handle (Respond i r) w
          = flushTimer_settled value r (setInflight (delete i (inflight w)) w)) as Hh.
  { cbn [handle]. by rewrite Hi. }
  destruct (fire_inert (Respond i r) w) as (-> & _).
  { rewrite Hh. unfold flushTimer_settled. rewrite Hr. by left. }
  destruct (fire_form (Respond i r) w) as (_ & _ & _ & _ & _ & _ & _ & _ & _ & -> & _).
  rewrite Hh. unfold flushTimer_settled. rewrite Hr.
  split; [done | apply lookup_delete_eq].
Qed.



(** ** The invariant of the timer state *)




(** ** Settings *)

(** C7, as amended.  Saving the settings and reloading the page restores the
    username and the token exactly; the goal slug is the one of the
    persisted timer-state record if there is one, and the saved one, exactly,
    if there is none. *)
Theorem settings_round_trip (w : World) :
  let w' := reload (fire ClickSave w) in
  username w' = username w
  ∧ authToken w' = authToken w
  ∧ goalSlug w' = reloaded_goalSlug w
  ∧ (localStorage w !! TIMER_STATE_KEY = None → goalSlug w' = goalSlug w).
Proof.
  intros w'.
  assert (username w' = username w ∧ authToken w' = authToken w
          ∧ goalSlug w' = reloaded_goalSlug w) as (Hu & Ht & Hg).
  { subst w'. unfold reload.
    destruct (mount_form (localStorage (fire ClickSave w))
                (clock (fire ClickSave w)) (network (fire ClickSave w)))
      as (_ & _ & _ & -> & -> & -> & _).
    destruct (fire_form ClickSave w)
      as (_ & _ & _ & _ & _ & _ & _ & _ & _ & -> & _).
    assert (localStorage (handle ClickSave w)
            = <[SETTINGS_KEY := JSettings {| ss_username := username w;
                                             ss_authToken := authToken w;
                                             ss_goalSlug := goalSlug w |}]>
                (localStorage w)) as ->.
    { cbn [handle]. unfold saveSettings, setItem. by destruct (_ && _). }
    unfold load_effect, reloaded_goalSlug. cbn [localStorage first_render].
    rewrite lookup_insert_eq.
    rewrite !lookup_insert_ne by done.
    cbn [ss_username ss_authToken ss_goalSlug].
    destruct (localStorage w !! TIMER_STATE_KEY) as [[| |parsed]|];
      destruct (localStorage w !! GOALS_KEY) as [[| |]|];
      destruct (negb (empty (username w)) && negb (empty (authToken w)));
      cbn; rewrite ?str_or_empty; done. }
  split_and!; [done..|].
  intros Hnone. rewrite Hg. unfold reloaded_goalSlug. by rewrite Hnone.
Qed.

Lemma settings_round_trip_witness :
  let w := after (signed_in ++ [SelectGoal "code"]) 0 in
  let w' := reload (fire ClickSave w) in
  username w' = "alice" ∧ authToken w' = "tok" ∧ goalSlug w' = "code".
Proof.
  intros w w'.
  destruct (settings_round_trip w) as (Hu & Ht & _ & Hg).
  split; [exact Hu|]. split; [exact Ht|]. apply Hg. vm_compute. reflexivity.
Defined.

(** C7 as stated fails.  A countdown has run out and its post is on its way;
    the user picks another goal and saves the settings.  After a reload the
    goal is the one of the timer that is still persisted. *)
Lemma saved_goal_lost_to_persisted_timer :
  ∃ w, run (signed_in ++ [ClickStart; Elapse 1200000; Tick; SelectGoal "code"])
           (fresh_page 0) = Some w
       ∧ enabled ClickSave w = true
       ∧ goalSlug w = "code"
       ∧ goalSlug (reload (fire ClickSave w)) = "read"
       ∧ ¬ spec_settings_round_trip w.
Proof.
  set (w := after (signed_in ++ [ClickStart; Elapse 1200000; Tick;
                                 SelectGoal "code"]) 0).
  exists w. split; [vm_compute; reflexivity|].
  assert (goalSlug w = "code") as Hw by (vm_compute; reflexivity).
  assert (goalSlug (reload (fire ClickSave w)) = "read") as Hw'
    by (vm_compute; reflexivity).
  split; [vm_compute; reflexivity|].
  split; [done|]. split; [done|].
  intros (_ & _ & Hg). rewrite Hw, Hw' in Hg. discriminate.
Qed.

(** ** The persisted timer *)

Lemma num_or_zero n : num_or n 0 = n.
Proof. unfold num_or. by case_bool_decide. Qed.

Lemma load_effect_timer w t :
  localStorage w !! TIMER_STATE_KEY = Some (JTimer t) →
  status (load_effect w) = ts_status t
  ∧ remaining (load_effect w) = Some (ts_remaining t)
  ∧ deadline (load_effect w) = ts_deadline t
  ∧ paused (load_effect w) = ts_paused t
  ∧ goalSlug (load_effect w) = ts_goalSlug t
  ∧ selectedDuration (load_effect w) = ts_selectedDuration t
  ∧ comment (load_effect w) = ts_comment t.
Proof.
  intros Ht. unfold load_effect. rewrite Ht. cbn.
  by rewrite !str_or_empty, num_or_zero.
Qed.

(** What a reload makes of a persisted record whose countdown is not at
    zero: the hooks of the timer are the fields of the record, and the
    interval is installed if the record runs against a deadline. *)
Lemma reload_timer w t :
  localStorage w !! TIMER_STATE_KEY = Some (JTimer t) →
  ts_remaining t ≠ 0 →
  status (reload w) = ts_status t
  ∧ remaining (reload w) = Some (ts_remaining t)
  ∧ deadline (reload w) = ts_deadline t
  ∧ paused (reload w) = ts_paused t
  ∧ goalSlug (reload w) = ts_goalSlug t
  ∧ selectedDuration (reload w) = ts_selectedDuration t
  ∧ comment (reload w) = ts_comment t
  ∧ clock (reload w) = clock w
  ∧ localStorage (reload w) = localStorage w
  ∧ interval (reload w)
    = bool_decide (ts_status t = Running ∧ ts_deadline t ≠ None).
Proof.
  intros Ht Hnz.
  set (p := first_render (localStorage w) (clock w) (network w)).
  destruct (load_effect_timer p t Ht) as (Hs & Hr & Hd & Hp & Hg & Hsd & Hc).
  assert (status (reload w) = ts_status t) as Hstatus.
  { unfold reload, mount. fold p. rewrite settle_settled, settled_status.
    rewrite after_post_effect_inert; [done|]. left. rewrite Hr. by intros [=]. }
  destruct (mount_form (localStorage w) (clock w) (network w))
    as (Hr' & Hd' & Hp' & _ & _ & Hg' & Hc' & Hsd' & _ & Hl' & Hck' & _).
  fold p in Hr', Hd', Hp', Hg', Hc', Hsd', Hl', Hck'.
  assert (clock (load_effect p) = clock w ∧ localStorage (load_effect p) = localStorage w)
    as [Hck Hl].
  { unfold load_effect. by repeat case_match. }
  destruct (mount_session_inv (localStorage w) (clock w) (network w)) as [Htick _].
  unfold ticking_inv in Htick.
  unfold reload in *. rewrite Htick, Hstatus, Hr', Hd', Hp', Hg', Hc', Hsd', Hl', Hck'.
  by rewrite Hr, Hd, Hp, Hg, Hsd, Hc, Hck, Hl.
Qed.

Lemma startTimer_starts w :
  ¬ missing w →
  startTimer w
  = setItem TIMER_STATE_KEY
      (JTimer {| ts_status := Running;
                 ts_remaining := selectedDuration w;
                 ts_deadline := Some (clock w + selectedDuration w * 1000);
                 ts_paused := false;
                 ts_goalSlug := goalSlug w;
                 ts_selectedDuration := selectedDuration w;
                 ts_comment := comment w |})
      (setDeadline (Some (clock w + selectedDuration w * 1000))
         (setRemaining (Some (selectedDuration w))
            (setPaused false
               (setStatus Running (setFlushMessage None (setError None w)))))).
Proof.
  intros Hm. apply not_missing in Hm as (Hu & Ht & Hg).
  unfold startTimer. by rewrite !empty_false.
Qed.

Lemma fire_storage e w : localStorage (fire e w) = localStorage (handle e w).
Proof. by destruct (fire_form e w) as (_ & _ & _ & _ & _ & _ & _ & _ & _ & -> & _). Qed.

Lemma fire_clock e w : clock (fire e w) = clock (handle e w).
Proof.
  by destruct (fire_form e w) as (_ & _ & _ & _ & _ & _ & _ & _ & _ & _ & -> & _).
Qed.

Lemma tick_remaining w d :
  deadline w = Some d →
  remaining (fire Tick w) = Some (Z.max 0 (round_div_1000 (d - clock w))).
Proof.
  intros Hd. rewrite fire_remaining. cbn [handle]. unfold interval_callback.
  rewrite Hd. by destruct (_ <=? _).
Qed.

Ltac ts_simpl :=
  cbn [ts_status ts_remaining ts_deadline ts_paused ts_goalSlug
       ts_selectedDuration ts_comment] in *.



(** X2.  Pausing writes the record with [paused: true] but with the
    deadline of the render before the pause.  So when a paused timer is
    reloaded, it comes back paused and with that old deadline: the interval
    is installed and its tick counts down against the old deadline, as if
    the timer had never been paused. *)
Theorem paused_timer_counts_on_after_reload (w : World) (r d ms : Z) :
  status w = Running → paused w = false → remaining w = Some r → r ≠ 0 →
  deadline w = Some d →
  let p := fire (Elapse ms) (fire ClickPause w) in
  (paused p = true ∧ deadline p = None ∧ remaining p = Some r)
  ∧ (paused (reload p) = true ∧ status (reload p) = Running
     ∧ deadline (reload p) = Some d
     ∧ enabled Tick (reload p) = true
     ∧ remaining (fire Tick (reload p))
       = Some (Z.max 0 (round_div_1000 (d - (clock w + ms))))).
Proof.
  intros Hs Hp Hr Hnz Hd p.
  set (t := {| ts_status := status w; ts_remaining := r;
               ts_deadline := deadline w; ts_paused := true;
               ts_goalSlug := goalSlug w;
               ts_selectedDuration := selectedDuration w;
               ts_comment := comment w |}).
  assert (handle ClickPause w
          = setItem TIMER_STATE_KEY (JTimer t)
              (setPaused true (setDeadline None w))) as Hh.
  { cbn [handle]. unfold togglePause. by rewrite Hr, Hp. }
  assert (paused p = true ∧ deadline p = None ∧ remaining p = Some r
          ∧ clock p = clock w + ms
          ∧ localStorage p !! TIMER_STATE_KEY = Some (JTimer t))
    as (Hp1 & Hd1 & Hr1 & Hc1 & Hl1).
  { subst p. rewrite fire_Elapse.
    cbn [setClock localStorage deadline clock paused remaining].
    rewrite fire_storage, fire_clock.
    destruct (fire_form ClickPause w) as (-> & -> & -> & _).
    rewrite Hh. cbn. split_and!; try done. apply lookup_insert_eq. }
  clearbody p. split; [done|].
  destruct (reload_timer p t Hl1 Hnz)
    as (Hs' & _ & Hd' & Hp' & _ & _ & _ & Hck & _ & Hi).
  subst t. ts_simpl. rewrite Hs in Hs', Hi. rewrite Hd in Hd', Hi.
  split; [done|]. split; [done|]. split; [done|]. split.
  - cbn [enabled]. rewrite Hi. by apply bool_decide_eq_true_2.
  - rewrite (tick_remaining _ _ Hd'). by rewrite Hck, Hc1.
Qed.

Lemma paused_timer_counts_on_after_reload_witness :
  let w := after (signed_in ++ [ClickStart]) 0 in
  let p := fire (Elapse 60000) (fire ClickPause w) in
  (paused p = true ∧ deadline p = None ∧ remaining p = Some 1200)
  ∧ (paused (reload p) = true ∧ status (reload p) = Running
     ∧ deadline (reload p) = Some 1200000
     ∧ enabled Tick (reload p) = true
     ∧ remaining (fire Tick (reload p))
       = Some (Z.max 0 (round_div_1000 (1200000 - (clock w + 60000))))).
Proof.
  intros w. apply (paused_timer_counts_on_after_reload w 1200 1200000 60000).
  - vm_compute. reflexivity.
  - vm_compute. reflexivity.
  - vm_compute. reflexivity.
  - lia.
  - vm_compute. reflexivity.
Defined.

(** X3.  Resuming writes the record with [paused: false] and the deadline of
    the render before the resume, which is null.  So when a resumed timer
    is reloaded, it comes back running, not paused and without a deadline:
    no interval is installed and [remaining] stays where it was. *)
Theorem resumed_timer_stalls_after_reload (w : World) (r ms : Z) :
  status w = Running → paused w = true → remaining w = Some r → r ≠ 0 →
  deadline w = None →
  let q := fire (Elapse ms) (fire ClickPause w) in
  (paused q = false ∧ deadline q = Some (clock w + r * 1000))
  ∧ (status (reload q) = Running ∧ paused (reload q) = false
     ∧ deadline (reload q) = None ∧ remaining (reload q) = Some r
     ∧ enabled Tick (reload q) = false).
Proof.
  intros Hs Hp Hr Hnz Hd q.
  set (t := {| ts_status := status w; ts_remaining := r;
               ts_deadline := deadline w; ts_paused := false;
               ts_goalSlug := goalSlug w;
               ts_selectedDuration := selectedDuration w;
               ts_comment := comment w |}).
  assert (handle ClickPause w
          = setItem TIMER_STATE_KEY (JTimer t)
              (setPaused false (setDeadline (Some (clock w + r * 1000)) w))) as Hh.
  { cbn [handle]. unfold togglePause. by rewrite Hr, Hp. }
  assert (paused q = false ∧ deadline q = Some (clock w + r * 1000)
          ∧ localStorage q !! TIMER_STATE_KEY = Some (JTimer t))
    as (Hp1 & Hd1 & Hl1).
  { subst q. rewrite fire_Elapse.
    cbn [setClock localStorage deadline clock paused remaining].
    rewrite fire_storage.
    destruct (fire_form ClickPause w) as (_ & -> & -> & _).
    rewrite Hh. cbn. split_and!; try done. apply lookup_insert_eq. }
  clearbody q. split; [done|].
  destruct (reload_timer q t Hl1 Hnz)
    as (Hs' & Hr' & Hd' & Hp' & _ & _ & _ & _ & _ & Hi).
  subst t. ts_simpl. rewrite Hs in Hs', Hi. rewrite Hd in Hd', Hi.
  split; [done|]. split; [done|]. split; [done|]. split; [done|].
  cbn [enabled]. rewrite Hi. apply bool_decide_eq_false_2. by intros [_ ?].
Qed.

Lemma resumed_timer_stalls_after_reload_witness :
  let w := after (signed_in ++ [ClickStart; ClickPause]) 0 in
  let q := fire (Elapse 5000) (fire ClickPause w) in
  (paused q = false ∧ deadline q = Some (clock w + 1200 * 1000))
  ∧ (status (reload q) = Running ∧ paused (reload q) = false
     ∧ deadline (reload q) = None ∧ remaining (reload q) = Some 1200
     ∧ enabled Tick (reload q) = false).
Proof.
  intros w. apply (resumed_timer_stalls_after_reload w 1200 5000).
  - vm_compute. reflexivity.
  - vm_compute. reflexivity.
  - vm_compute. reflexivity.
  - lia.
  - vm_compute. reflexivity.
Defined.

(** ** Goals *)

(** X4.  Without a username or without a token, refreshing the goals only
    sets the message that they are required: no request is sent and nothing
    else changes. *)
Theorem refresh_without_credentials (w : World) :
  username w = "" ∨ authToken w = "" →
  fire ClickRefreshGoals w
  = setGoalsError (Some "Username and auth token are required to load goals.") w.
Proof.
  intros Hm.
  assert (handle ClickRefreshGoals w
          = setGoalsError
              (Some "Username and auth token are required to load goals.") w) as Hh.
  { cbn [handle]. unfold refreshGoals.
    destruct Hm as [Hm|Hm]; rewrite (empty_true _ Hm); [done|].
    by rewrite orb_true_r. }
  rewrite <- Hh. apply fire_quiet; by rewrite Hh.
Qed.

Lemma refresh_without_credentials_witness :
  fire ClickRefreshGoals (setUsername "alice" (fresh_page 0))
  = setGoalsError (Some "Username and auth token are required to load goals.")
      (setUsername "alice" (fresh_page 0)).
Proof.
  apply (refresh_without_credentials (setUsername "alice" (fresh_page 0))).
  right. reflexivity.
Defined.

Lemma fire_Respond_goals w i r slug0 :
  inflight w !! i = Some (AfterGoals slug0) →
  fire (Respond i r) w
  = settled w (refreshGoals_settled slug0 r
                 (setInflight (delete i (inflight w)) w)).
Proof. intros Hi. rewrite fire_settled. cbn [handle]. by rewrite Hi. Qed.

Lemma fire_goals e w :
  goals (fire e w) = goals (handle e w)
  ∧ loadingGoals (fire e w) = loadingGoals (handle e w)
  ∧ goalsError (fire e w) = goalsError (handle e w)
  ∧ lastGoalsUpdate (fire e w) = lastGoalsUpdate (handle e w)
  ∧ goalSlug (fire e w) = goalSlug (handle e w).
Proof.
  destruct (fire_form e w)
    as (_ & _ & _ & _ & _ & -> & _ & _ & _ & _ & _ & -> & -> & -> & -> & _).
  done.
Qed.

(** X5.  When the goals arrive, the page keeps exactly those that count
    minutes, with the time of arrival, and caches both; the goal selected
    becomes the first of them if none was selected when the refresh was
    clicked; and a reload brings back the same list and the same time. *)
Theorem goals_refreshed (w : World) (i : nat) (slug0 : string) (code : Z)
    (text : string) (parsed : list BeeminderGoal) :
  inflight w !! i = Some (AfterGoals slug0) → ok code = true →
  let w' := fire (Respond i (HttpResponse code text (inr parsed))) w in
  let kept := filter counts_minutes parsed in
  goals w' = kept
  ∧ lastGoalsUpdate w' = Some (clock w)
  ∧ loadingGoals w' = false
  ∧ localStorage w' !! GOALS_KEY
    = Some (JGoals {| sg_goals := kept; sg_updatedAt := clock w |})
  ∧ goalSlug w'
    = match kept with
      | first :: _ => if empty slug0 then slug first else goalSlug w
      | [] => goalSlug w
      end
  ∧ goals (reload w') = kept
  ∧ lastGoalsUpdate (reload w') = Some (clock w).
Proof.
  intros Hi Hok w' kept.
  set (e := Respond i (HttpResponse code text (inr parsed))) in *.
  assert (handle e w
          = setLoadingGoals false
              (let w1 := setItem GOALS_KEY
                           (JGoals {| sg_goals := kept; sg_updatedAt := clock w |})
                           (setLastGoalsUpdate (Some (clock w))
                              (setGoals kept
                                 (setInflight (delete i (inflight w)) w))) in
               match kept with
               | first :: _ =>
                   if empty slug0 then setGoalSlug (slug first) w1 else w1
               | [] => w1
               end)) as Hh.
  { subst e. cbn [handle]. rewrite Hi. unfold refreshGoals_settled, failure.
    rewrite Hok. reflexivity. }
  assert (goals w' = kept ∧ lastGoalsUpdate w' = Some (clock w)
          ∧ loadingGoals w' = false
          ∧ localStorage w' !! GOALS_KEY
            = Some (JGoals {| sg_goals := kept; sg_updatedAt := clock w |})
          ∧ goalSlug w'
            = match kept with
              | first :: _ => if empty slug0 then slug first else goalSlug w
              | [] => goalSlug w
              end) as (Hg & Hu & Hl & Hs & Hgs).
  { subst w'. destruct (fire_goals e w) as (-> & -> & _ & -> & ->).
    rewrite fire_storage, Hh. cbn zeta.
    destruct kept as [|first rest]; [|destruct (empty slug0)]; cbn;
      (split_and!; [done..|apply lookup_insert_eq|done]). }
  clearbody w'. split_and!; try done.
  - unfold reload.
    destruct (mount_form (localStorage w') (clock w') (network w'))
      as (_ & _ & _ & _ & _ & _ & _ & _ & _ & _ & _ & -> & _).
    unfold load_effect. cbn [localStorage first_render]. rewrite Hs.
    by repeat case_match.
  - unfold reload.
    destruct (mount_form (localStorage w') (clock w') (network w'))
      as (_ & _ & _ & _ & _ & _ & _ & _ & _ & _ & _ & _ & _ & _ & -> & _).
    unfold load_effect. cbn [localStorage first_render]. rewrite Hs.
    by repeat case_match.
Qed.

Lemma goals_refreshed_witness :
  let w := after [TypeUsername "alice"; TypeAuthToken "tok"; ClickRefreshGoals] 0 in
  let parsed := [ mkGoal "read" None (Some "minutes");
                  mkGoal "run" (Some "Running") (Some "km");
                  mkGoal "code" None (Some "minutes") ] in
  let w' := fire (Respond 0 (HttpResponse 200 "[..]" (inr parsed))) w in
  let kept := filter counts_minutes parsed in
  goals w' = kept
  ∧ lastGoalsUpdate w' = Some (clock w)
  ∧ loadingGoals w' = false
  ∧ localStorage w' !! GOALS_KEY
    = Some (JGoals {| sg_goals := kept; sg_updatedAt := clock w |})
  ∧ goalSlug w'
    = match kept with
      | first :: _ => if empty "" then slug first else goalSlug w
      | [] => goalSlug w
      end
  ∧ goals (reload w') = kept
  ∧ lastGoalsUpdate (reload w') = Some (clock w).
Proof.
  intros w parsed. apply (goals_refreshed w 0 "" 200 "[..]" parsed).
  - vm_compute. reflexivity.
  - reflexivity.
Defined.

(** X6.  When the refresh fails (a rejected fetch, a response that is not
    [ok], a body that does not parse), the message of the failure is shown,
    the button is free again, and the goals, their time, the goal selected
    and [localStorage] are as before; nothing is sent. *)
Theorem goals_refresh_failed (w : World) (i : nat) (slug0 : string)
    (r : Response) (message : string) :
  inflight w !! i = Some (AfterGoals slug0) → goals_failure r = Some message →
  let w' := fire (Respond i r) w in
  goalsError w' = Some message ∧ loadingGoals w' = false
  ∧ goals w' = goals w ∧ lastGoalsUpdate w' = lastGoalsUpdate w
  ∧ goalSlug w' = goalSlug w ∧ localStorage w' = localStorage w
  ∧ network w' = network w ∧ status w' = status w.
Proof.
  intros Hi Hfail w'.
  assert (handle (Respond i r) w
          = setLoadingGoals false
              (setGoalsError (Some message)
                 (setInflight (delete i (inflight w)) w))) as Hh.
  { cbn [handle]. rewrite Hi. unfold refreshGoals_settled.
    unfold goals_failure in Hfail.
    destruct (failure "Beeminder goals error" r) as [m|]; [by injection Hfail as ->|].
    destruct r as [code text [m|parsed]|m]; [by injection Hfail as ->|done..]. }
  subst w'. destruct (fire_goals (Respond i r) w) as (-> & -> & -> & -> & ->).
  rewrite fire_storage, fire_settled, settled_network, settled_status, Hh.
  unfold after_post_effect. rewrite bool_decide_eq_true_2 by done. done.
Qed.

Lemma goals_refresh_failed_witness :
  let w := after [TypeUsername "alice"; TypeAuthToken "tok"; ClickRefreshGoals] 0 in
  let w' := fire (Respond 0 (HttpResponse 401 "denied" (inl ""))) w in
  goalsError w' = Some "Beeminder goals error 401: denied"
  ∧ loadingGoals w' = false
  ∧ goals w' = goals w ∧ lastGoalsUpdate w' = lastGoalsUpdate w
  ∧ goalSlug w' = goalSlug w ∧ localStorage w' = localStorage w
  ∧ network w' = network w ∧ status w' = status w.
Proof.
  intros w.
  apply (goals_refresh_failed w 0 "" (HttpResponse 401 "denied" (inl ""))
           "Beeminder goals error 401: denied").
  - vm_compute. reflexivity.
  - vm_compute. reflexivity.
Defined.

Ltac storage_simpl :=
  rewrite ?lookup_insert_eq, ?lookup_delete_eq;
  rewrite ?lookup_insert_ne, ?lookup_delete_ne by done.

Lemma handle_goals_inv e w : goals_inv w → goals_inv (handle e w).
Proof.
  unfold goals_inv. intros [Hg Hc].
  assert (∀ parsed, Forall counts_minutes (filter counts_minutes parsed)) as Hfilter.
  { intros parsed. apply Forall_forall. by intros g [? _]%list_elem_of_filter. }
  assert (∀ parsed kept, filter counts_minutes parsed = kept →
                         Forall counts_minutes kept) as Hkept.
  { by intros parsed kept <-. }
  destruct e; unfold_handlers; repeat case_match; cbn;
    (split; [done || by eapply Hkept
            | intros cached; storage_simpl; try by apply Hc]).
  all: intros [= <-]; by eapply Hkept.
Qed.

Lemma mount_goals_inv storage now sent :
  (∀ cached, storage !! GOALS_KEY = Some (JGoals cached) →
             Forall counts_minutes (sg_goals cached)) →
  goals_inv (mount storage now sent).
Proof.
  intros Hc. unfold goals_inv.
  destruct (mount_form storage now sent)
    as (_ & _ & _ & _ & _ & _ & _ & _ & _ & -> & _ & -> & _).
  assert (localStorage (load_effect (first_render storage now sent)) = storage) as ->.
  { unfold load_effect. by repeat case_match. }
  split; [|done].
  unfold load_effect. cbn [localStorage first_render].
  destruct (storage !! GOALS_KEY) as [[| cached |]|] eqn:Hgoals;
    repeat case_match; cbn; try done; by apply Hc.
Qed.

(** X7.  Whatever the server sends and whatever is reloaded, every goal the
    page lists, and every goal in its cache, counts minutes. *)
Theorem listed_goals_count_minutes (w : World) :
  reachable w →
  Forall counts_minutes (goals w)
  ∧ ∀ cached, localStorage w !! GOALS_KEY = Some (JGoals cached) →
              Forall counts_minutes (sg_goals cached).
Proof.
  apply (reachable_invariant goals_inv).
  - intros now. refine (mount_goals_inv ∅ now [] _).
    intros cached. by rewrite lookup_empty.
  - intros e u Hu _. destruct (handle_goals_inv e u Hu) as [Hg Hc].
    unfold goals_inv. destruct (fire_goals e u) as (-> & _). by rewrite fire_storage.
  - intros u [_ Hc]. exact (mount_goals_inv _ (clock u) (network u) Hc).
Qed.

Lemma listed_goals_count_minutes_witness :
  let w := after signed_in 0 in
  Forall counts_minutes (goals w)
  ∧ ∀ cached, localStorage w !! GOALS_KEY = Some (JGoals cached) →
              Forall counts_minutes (sg_goals cached).
Proof.
  intros w. apply (listed_goals_count_minutes w).
  apply reachable_after. vm_compute. eexists. reflexivity.
Defined.

Lemma goal_fetches_app l1 l2 :
  goal_fetches (l1 ++ l2) = (goal_fetches l1 + goal_fetches l2)%nat.
Proof. unfold goal_fetches. by rewrite filter_app, length_app. Qed.

Lemma goal_fetches_delete l i k :
  l !! i = Some k →
  goal_fetches l
  = ((if isAfterGoals k then 1 else 0) + goal_fetches (delete i l))%nat.
Proof.
  intros Hi. rewrite delete_take_drop.
  rewrite <- (take_drop_middle l i k Hi) at 1.
  rewrite !goal_fetches_app.
  change (k :: drop (S i) l) with ([k] ++ drop (S i) l).
  rewrite goal_fetches_app.
  assert (goal_fetches [k] = if isAfterGoals k then 1%nat else 0%nat) as ->
    by by destruct k.
  lia.
Qed.

Lemma settled_handlers_loading r w :
  (inflight (postToBeeminder_settled r w) = inflight w
   ∧ loadingGoals (postToBeeminder_settled r w) = loadingGoals w)
  ∧ (∀ value, inflight (flushTimer_settled value r w) = inflight w
              ∧ loadingGoals (flushTimer_settled value r w) = loadingGoals w)
  ∧ (∀ slug0, inflight (refreshGoals_settled slug0 r w) = inflight w
              ∧ loadingGoals (refreshGoals_settled slug0 r w) = false).
Proof.
  split_and!; intros; try split;
    unfold postToBeeminder_settled, flushTimer_settled, refreshGoals_settled;
    by repeat case_match.
Qed.

Lemma handle_loading_inv e w :
  loading_inv w → enabled e w = true → loading_inv (handle e w).
Proof.
  unfold loading_inv. intros IH He.
  destruct e; cbn [enabled] in He;
    try (unfold_handlers; cbn; repeat (case_match; cbn in * ); bool_hyps;
         rewrite ?goal_fetches_app, ?IH; cbn; by (done || lia)).
  (* a response *)
  cbn [handle]. destruct (inflight w !! i) as [k|] eqn:Hi; [|done].
  pose proof (goal_fetches_delete _ _ _ Hi) as Hdel. rewrite IH in Hdel.
  destruct (settled_handlers_loading r (setInflight (delete i (inflight w)) w))
    as ([Hp1 Hp2] & Hf & Hg).
  destruct k as [|value|slug0]; cbn [isAfterGoals] in Hdel.
  - rewrite Hp1, Hp2. cbn. destruct (loadingGoals w); lia.
  - destruct (Hf value) as [-> ->]. cbn. destruct (loadingGoals w); lia.
  - destruct (Hg slug0) as [-> ->]. cbn. destruct (loadingGoals w); lia.
Qed.

Lemma settled_loading_inv prev cur : loading_inv cur → loading_inv (settled prev cur).
Proof.
  unfold loading_inv. intros IH.
  destruct (settled_form prev cur)
    as (_ & _ & _ & _ & _ & _ & _ & _ & _ & _ & _ & _ & -> & _).
  rewrite settled_inflight. unfold after_post_effect.
  case_bool_decide; [done|].
  post_effect_cases cur; [done..|].
  unfold postToBeeminder, fetch. cbn. rewrite goal_fetches_app, IH.
  change (goal_fetches [AfterPost]) with 0%nat. lia.
Qed.

Lemma mount_loading_inv storage now sent : loading_inv (mount storage now sent).
Proof.
  unfold mount. rewrite settle_settled. apply settled_loading_inv.
  unfold loading_inv, load_effect. by repeat case_match.
Qed.

(** X8.  The page shows the goals as loading exactly while one refresh is in
    flight, and there is never more than one: the button is disabled until
    its response has come, and a reload drops both. *)
Theorem one_goal_refresh_at_a_time (w : World) :
  reachable w →
  goal_fetches (inflight w) = if loadingGoals w then 1%nat else 0%nat.
Proof.
  apply (reachable_invariant loading_inv).
  - intros now. exact (mount_loading_inv ∅ now []).
  - intros e u Hu He. rewrite fire_settled.
    by apply settled_loading_inv, handle_loading_inv.
  - intros u _. exact (mount_loading_inv (localStorage u) (clock u) (network u)).
Qed.

Lemma one_goal_refresh_at_a_time_witness :
  let w := after [TypeUsername "alice"; TypeAuthToken "tok"; ClickRefreshGoals] 0 in
  goal_fetches (inflight w) = if loadingGoals w then 1%nat else 0%nat.
Proof.
  intros w. apply (one_goal_refresh_at_a_time w).
  apply reachable_after. vm_compute. eexists. reflexivity.
Defined.

(** ** Settings, again *)

Lemma fire_flags e w :
  hasStoredSettings (fire e w) = hasStoredSettings (handle e w)
  ∧ showSettingsForm (fire e w) = showSettingsForm (handle e w).
Proof.
  destruct (fire_form e w)
    as (_ & _ & _ & _ & _ & _ & _ & _ & _ & _ & _ & _ & _ & _ & _ & -> & ->).
  done.
Qed.

(** X9.  Saving a username and a token that are not empty hides the settings
    form, now and after a reload; saving with one of them empty leaves the
    form as it is now, and after a reload the form is shown. *)
Theorem saved_settings_and_the_form (w : World) :
  let saved := fire ClickSave w in
  (username w ≠ "" ∧ authToken w ≠ "" →
   settingsFormShown saved = false ∧ settingsFormShown (reload saved) = false)
  ∧ (username w = "" ∨ authToken w = "" →
     settingsFormShown saved = settingsFormShown w
     ∧ settingsFormShown (reload saved) = true).
Proof.
  intros saved.
  assert (localStorage saved !! SETTINGS_KEY
          = Some (JSettings {| ss_username := username w;
                               ss_authToken := authToken w;
                               ss_goalSlug := goalSlug w |})) as Hl.
  { subst saved. rewrite fire_storage. cbn [handle]. unfold saveSettings, setItem.
    destruct (_ && _); cbn; apply lookup_insert_eq. }
  assert (settingsFormShown (reload saved)
          = negb (negb (empty (username w)) && negb (empty (authToken w)))) as Hreload.
  { unfold reload, settingsFormShown.
    destruct (mount_form (localStorage saved) (clock saved) (network saved))
      as (_ & _ & _ & _ & _ & _ & _ & _ & _ & _ & _ & _ & _ & _ & _ & -> & ->).
    unfold load_effect. cbn [localStorage first_render]. rewrite Hl.
    cbn [ss_username ss_authToken ss_goalSlug].
    destruct (negb (empty (username w)) && negb (empty (authToken w)));
      by repeat case_match. }
  assert (settingsFormShown saved
          = if negb (empty (username w)) && negb (empty (authToken w))
            then false else settingsFormShown w) as Hsaved.
  { subst saved. unfold settingsFormShown.
    destruct (fire_flags ClickSave w) as [-> ->]. cbn [handle]. unfold saveSettings.
    by destruct (_ && _). }
  rewrite Hreload, Hsaved. split.
  - intros [Hu Ht]. by rewrite !empty_false.
  - intros [Hu|Ht]; [rewrite (empty_true _ Hu) | rewrite (empty_true _ Ht)];
      by rewrite ?andb_false_r.
Qed.

Lemma saved_settings_and_the_form_witness :
  let w := after [TypeUsername "alice"; TypeAuthToken "tok"] 0 in
  settingsFormShown (fire ClickSave w) = false
  ∧ settingsFormShown (reload (fire ClickSave w)) = false.
Proof.
  intros w. destruct (saved_settings_and_the_form w) as [H _].
  apply H. split; vm_compute; discriminate.
Defined.

(** X10.  Nothing but the save button writes the settings record: the
    username and the token that are typed stay out of [localStorage] until
    they are saved. *)
Theorem settings_written_on_save_only (e : Event) (w : World) :
  e ≠ ClickSave →
  localStorage (fire e w) !! SETTINGS_KEY = localStorage w !! SETTINGS_KEY.
Proof.
  intros He. rewrite fire_storage.
  destruct e; try done; unfold_handlers; repeat case_match; cbn;
    by storage_simpl.
Qed.

Lemma settings_written_on_save_only_witness :
  localStorage (fire (TypeAuthToken "tok") (fresh_page 0)) !! SETTINGS_KEY
  = localStorage (fresh_page 0) !! SETTINGS_KEY.
Proof.
  apply (settings_written_on_save_only (TypeAuthToken "tok") (fresh_page 0)).
  discriminate.
Defined.

(** ** The space bar *)

Lemma fire_same_handle e1 e2 w : handle e1 w = handle e2 w → fire e1 w = fire e2 w.
Proof. unfold fire. by intros ->. Qed.

(** X11.  The space bar never reports a missing field and never sends a
    request: it leaves [status] as it is, or it starts a timer from [Idle],
    and then the fields are all there and the selected duration is positive.
    (The start button, with a field missing, ends in [Error].) *)
Theorem space_bar_starts_only_what_can_run (w : World) :
  let w' := fire PressSpace w in
  network w' = network w
  ∧ (status w' = status w
     ∨ status w = Idle ∧ status w' = Running ∧ ¬ missing w
       ∧ 0 < selectedDuration w
       ∧ remaining w' = Some (selectedDuration w)).
Proof.
  intros w'. subst w'.
  destruct (empty (goalSlug w) || empty (username w) || empty (authToken w)
            || (selectedDuration w <=? 0)) eqn:Hguard.
  { rewrite fire_quiet; cbn [handle]; unfold handleKeyDown; rewrite Hguard;
      by (split; [|left]) || done. }
  assert (¬ missing w ∧ 0 < selectedDuration w) as [Hm Hd].
  { bool_hyps. split; [|done]. unfold missing. tauto. }
  destruct (decide (status w = Idle)) as [Hidle|Hidle].
  - assert (fire PressSpace w = fire ClickStart w) as ->.
    { apply fire_same_handle. cbn [handle]. unfold handleKeyDown.
      by rewrite Hguard, (bool_decide_eq_true_2 _ Hidle). }
    destruct (fire_inert ClickStart w) as (-> & _ & -> & _).
    { cbn [handle]. rewrite (startTimer_starts w Hm). left. cbn. intros [=]. lia. }
    rewrite fire_remaining. cbn [handle]. rewrite (startTimer_starts w Hm).
    split; [done|]. right. by split_and!.
  - destruct (bool_decide (status w = Running) || paused w) eqn:Htoggle.
    + assert (fire PressSpace w = fire ClickPause w) as ->.
      { apply fire_same_handle. cbn [handle]. unfold handleKeyDown.
        by rewrite Hguard, (bool_decide_eq_false_2 _ Hidle), Htoggle. }
      rewrite fire_ClickPause_status. split; [|by left].
      rewrite fire_settled, settled_network. unfold after_post_effect.
      rewrite bool_decide_eq_true_2 by apply togglePause_deps.
      cbn [handle]. unfold togglePause. by repeat case_match.
    + rewrite fire_quiet; cbn [handle]; unfold handleKeyDown;
        rewrite Hguard, (bool_decide_eq_false_2 _ Hidle), Htoggle;
        by (split; [|left]) || done.
Qed.

(** ** The post, again *)

(** X12.  When the countdown runs out with the fields present and the
    response, whenever it comes, is a success, exactly one datapoint has been
    sent, [selectedDuration / 60] minutes: [status] goes to [Posting] at the
    tick and to [Finished] at the response, the record of the timer is
    removed and nothing more is sent. *)
Theorem countdown_posts_exactly_once (w : World) (d wait : Z) (response : Response) :
  reachable w → status w = Running → deadline w = Some d →
  round_div_1000 (d - clock w) ≤ 0 → ¬ missing w →
  failure "Beeminder error" response = None →
  let posted := fire Tick w in
  let w' := fire (Respond (length (inflight w)) response)
              (fire (Elapse wait) posted) in
  (remaining posted = Some 0 ∧ status posted = Posting
   ∧ network posted = network w ++ [POST_datapoint (session_datapoint w)])
  ∧ status w' = Finished
  ∧ network w' = network posted
  ∧ localStorage w' !! TIMER_STATE_KEY = None.
Proof.
  intros Hreach Hrun Hd Hround Hm Hok posted w'.
  destruct (countdown_end_posts_once w d Hreach Hrun Hd Hround Hm)
    as (Hr & Hs & _ & Hn & Hi & _).
  fold posted in Hr, Hs, Hn, Hi. clearbody posted.
  split; [done|].
  assert (inflight (fire (Elapse wait) posted) !! length (inflight w)
          = Some AfterPost) as Hlook.
  { rewrite fire_Elapse. cbn. rewrite Hi. by apply list_lookup_middle. }
  destruct (post_success_finishes _ _ _ Hlook Hok) as (Hs' & Hn' & Hl').
  subst w'. rewrite Hs', Hn', Hl'. rewrite fire_Elapse. done.
Qed.

Lemma countdown_posts_exactly_once_witness :
  let w := after (signed_in ++ [ClickStart; Elapse 1200000]) 0 in
  let posted := fire Tick w in
  let w' := fire (Respond (length (inflight w)) created)
              (fire (Elapse 350) posted) in
  (remaining posted = Some 0 ∧ status posted = Posting
   ∧ network posted = network w ++ [POST_datapoint (session_datapoint w)])
  ∧ status w' = Finished
  ∧ network w' = network posted
  ∧ localStorage w' !! TIMER_STATE_KEY = None.
Proof.
  intros w. apply (countdown_posts_exactly_once w 1200000 350 created).
  - apply reachable_after. vm_compute. eexists. reflexivity.
  - vm_compute. reflexivity.
  - vm_compute. reflexivity.
  - vm_compute. discriminate.
  - vm_compute. intuition discriminate.
  - vm_compute. reflexivity.
Defined.

(** X13.  A countdown that ran out with a field missing waits in [Error]
    with [remaining] at zero, and the fields are dependencies of the post
    effect: as soon as an edit makes the three of them present (here the
    token, typed last), the datapoint is sent, with the fields as they are at
    that keystroke, and no button is clicked. *)
Theorem post_follows_the_last_missing_field (w : World) (s : string) :
  remaining w = Some 0 → status w = Error →
  username w ≠ "" → goalSlug w ≠ "" → authToken w = "" → s ≠ "" →
  let w' := fire (TypeAuthToken s) w in
  status w' = Posting
  ∧ network w'
    = network w ++ [POST_datapoint (session_datapoint (setAuthToken s w))].
Proof.
  intros Hr Hs Hu Hg Ht Hne w'. subst w'. rewrite fire_settled. cbn [handle].
  set (c := setAuthToken s w).
  assert (post_deps w ≠ post_deps c) as Hpd.
  { unfold post_deps. cbn. rewrite Ht. intros [=]. congruence. }
  assert (post_effect c = postToBeeminder c) as Hpost.
  { apply post_effect_posts.
    - unfold post_inert. cbn. rewrite Hr, Hs. intuition congruence.
    - unfold missing. cbn. tauto. }
  rewrite settled_status, settled_network. unfold after_post_effect.
  by rewrite (bool_decide_eq_false_2 _ Hpd), Hpost.
Qed.

Lemma post_follows_the_last_missing_field_witness :
  let w := fire (TypeUsername "alice")
             (fire Tick (fire (Elapse 1200000)
                (reload (after (signed_in ++ [ClickStart]) 0)))) in
  let w' := fire (TypeAuthToken "t") w in
  status w' = Posting
  ∧ network w'
    = network w ++ [POST_datapoint (session_datapoint (setAuthToken "t" w))].
Proof.
  intros w. apply (post_follows_the_last_missing_field w "t").
  - vm_compute. reflexivity.
  - vm_compute. reflexivity.
  - vm_compute. discriminate.
  - vm_compute. discriminate.
  - vm_compute. reflexivity.
  - discriminate.
Defined.

(** ** Flush, again *)

(** X14.  A flush with time elapsed, answered with a success whenever the
    response comes: one datapoint is sent, [elapsed / 60] minutes, which is
    positive; then the timer is back to [Idle] with [remaining] and
    [deadline] null and not paused, the record of the timer is removed, the
    message says what was logged, and no tick is due any more. *)
Theorem flush_succeeds (w : World) (r wait : Z) (response : Response) :
  reachable w → status w = Running →
  remaining w = Some r → 0 < selectedDuration w → ¬ missing w →
  0 < selectedDuration w - r → 0 ≤ wait →
  failure "Beeminder error" response = None →
  let value := (inject_Z (selectedDuration w - r) / 60)%Q in
  let posted := fire ClickFlush w in
  let w' := fire (Respond (length (inflight w)) response)
              (fire (Elapse wait) posted) in
  (status posted = Posting
   ∧ network posted
     = network w ++ [POST_datapoint (flush_datapoint w (selectedDuration w - r))]
   ∧ (0 < value)%Q)
  ∧ status w' = Idle ∧ remaining w' = None ∧ deadline w' = None
  ∧ paused w' = false
  ∧ flushMessage w' = Some (FlushLogged value)
  ∧ localStorage w' !! TIMER_STATE_KEY = None
  ∧ network w' = network posted
  ∧ enabled Tick w' = false.
Proof.
  intros Hreach Hrun Hr Hd Hm He Hwait Hok value posted w'.
  pose proof (flushTimer_posts w r Hr Hd Hm He) as Hflush. fold value in Hflush.
  set (request := POST_datapoint _) in *.
  assert (status posted = Posting ∧ network posted = network w ++ [request]
          ∧ inflight posted = inflight w ++ [AfterFlush value])
    as (Hs1 & Hn1 & Hi1).
  { subst posted.
    destruct (fire_inert ClickFlush w) as (-> & _ & -> & ->).
    { cbn [handle]. rewrite Hflush. right; by left. }
    cbn [handle]. by rewrite Hflush. }
  assert (reachable w') as Hreach'.
  { subst w'. apply reach_step.
    - apply reach_step; [|cbn [enabled]; by apply Z.leb_le].
      apply reach_step; [done|].
      cbn [enabled]. by apply bool_decide_eq_true_2.
    - cbn [enabled]. apply bool_decide_eq_true_2.
      rewrite fire_Elapse. cbn [inflight setClock]. rewrite Hi1.
      rewrite list_lookup_middle by done. by eexists. }
  clearbody posted.
  set (u := fire (Elapse wait) posted) in *.
  assert (network u = network posted
          ∧ inflight u = inflight w ++ [AfterFlush value]) as (Hn2 & Hi2).
  { subst u. rewrite fire_Elapse. by cbn. }
  clearbody u.
  assert (handle (Respond (length (inflight w)) response) u
          = setFlushMessage (Some (FlushLogged value))
              (removeItem TIMER_STATE_KEY
                 (setPaused false
                    (setStatus Idle
                       (setRemaining None
                          (setDeadline None
                             (setInflight
                                (delete (length (inflight w)) (inflight u)) u)))))))
    as Hh.
  { cbn [handle]. rewrite Hi2, list_lookup_middle by done.
    unfold flushTimer_settled. by rewrite Hok. }
  assert (status w' = Idle ∧ remaining w' = None ∧ deadline w' = None
          ∧ paused w' = false ∧ flushMessage w' = Some (FlushLogged value)
          ∧ localStorage w' !! TIMER_STATE_KEY = None
          ∧ network w' = network posted) as (Hs & Hr' & Hd' & Hp & Hf & Hl & Hn).
  { subst w'.
    destruct (fire_inert (Respond (length (inflight w)) response) u)
      as (-> & _ & -> & _).
    { rewrite Hh. by left. }
    destruct (fire_form (Respond (length (inflight w)) response) u)
      as (-> & -> & -> & _ & _ & _ & _ & _ & -> & -> & _).
    rewrite Hh. cbn. split_and!; try done. apply lookup_delete_eq. }
  split.
  { split; [done|]. split; [done|].
    subst value. unfold Qlt, Qdiv, Qmult, Qinv, inject_Z. cbn. lia. }
  split_and!; try done.
  cbn [enabled]. destruct (reachable_session_inv w' Hreach') as [-> _].
  apply bool_decide_eq_false_2. rewrite Hs. by intros [? _].
Qed.

Lemma flush_succeeds_witness :
  let w := after (signed_in ++ [ClickStart; Elapse 90000; Tick]) 0 in
  let value := (inject_Z (selectedDuration w - 1110) / 60)%Q in
  let posted := fire ClickFlush w in
  let w' := fire (Respond (length (inflight w)) created)
              (fire (Elapse 300) posted) in
  (status posted = Posting
   ∧ network posted
     = network w ++ [POST_datapoint (flush_datapoint w (selectedDuration w - 1110))]
   ∧ (0 < value)%Q)
  ∧ status w' = Idle ∧ remaining w' = None ∧ deadline w' = None
  ∧ paused w' = false
  ∧ flushMessage w' = Some (FlushLogged value)
  ∧ localStorage w' !! TIMER_STATE_KEY = None
  ∧ network w' = network posted
  ∧ enabled Tick w' = false.
Proof.
  intros w. apply (flush_succeeds w 1110 300 created).
  - apply reachable_after. vm_compute. eexists. reflexivity.
  - vm_compute. reflexivity.
  - vm_compute. reflexivity.
  - vm_compute. reflexivity.
  - vm_compute. intuition discriminate.
  - vm_compute. reflexivity.
  - lia.
  - vm_compute. reflexivity.
Defined.

(** ** The countdown, again *)

Lemma round_div_1000_mono a b : a ≤ b → round_div_1000 a ≤ round_div_1000 b.
Proof. intros. unfold round_div_1000. apply Z.div_le_mono; lia. Qed.

(** X15.  From one tick to the next the countdown never goes up and never
    goes below zero, however irregular the ticks are; and it shows zero
    exactly from half a second before the deadline on. *)
Theorem countdown_never_goes_up (w : World) (d ms : Z) :
  deadline w = Some d → 0 ≤ ms →
  ∃ a b, remaining (fire Tick w) = Some a
         ∧ remaining (fire Tick (fire (Elapse ms) (fire Tick w))) = Some b
         ∧ 0 ≤ b ≤ a
         ∧ (a = 0 ↔ d - clock w < 500).
Proof.
  intros Hd Hms.
  assert (deadline (fire (Elapse ms) (fire Tick w)) = Some d
          ∧ clock (fire (Elapse ms) (fire Tick w)) = clock w + ms) as [Hd' Hc'].
  { rewrite fire_Elapse. cbn [setClock deadline clock].
    rewrite fire_deadline, fire_clock. cbn [handle]. unfold interval_callback.
    rewrite Hd. by destruct (_ <=? _). }
  exists (Z.max 0 (round_div_1000 (d - clock w))),
         (Z.max 0 (round_div_1000 (d - (clock w + ms)))).
  split; [by apply tick_remaining|].
  split; [rewrite (tick_remaining _ _ Hd'); by rewrite Hc'|].
  pose proof (round_div_1000_mono (d - (clock w + ms)) (d - clock w) ltac:(lia)).
  split; [lia|].
  pose proof (round_div_1000_nearest (d - clock w)). lia.
Qed.

Lemma countdown_never_goes_up_witness :
  let w := after (signed_in ++ [ClickStart; Elapse 1000]) 0 in
  ∃ a b, remaining (fire Tick w) = Some a
         ∧ remaining (fire Tick (fire (Elapse 700) (fire Tick w))) = Some b
         ∧ 0 ≤ b ≤ a
         ∧ (a = 0 ↔ 1200000 - clock w < 500).
Proof.
  intros w. apply (countdown_never_goes_up w 1200000 700).
  - vm_compute. reflexivity.
  - lia.
Defined.

(** ** What is always so *)









(** ** Numbers as text *)

Lemma string_app_cons a (s t : string) : String a s +:+ t = String a (s +:+ t).
Proof. reflexivity. Qed.

Lemma string_app_nil_l (t : string) : "" +:+ t = t.
Proof. reflexivity. Qed.

Ltac app_simpl := repeat (rewrite string_app_cons || rewrite string_app_nil_l).

Lemma string_app_nil_r (s : string) : s +:+ "" = s.
Proof. induction s as [|a s IH]; [done|]. app_simpl. f_equal. exact IH. Qed.

Lemma string_app_assoc (s t u : string) : (s +:+ t) +:+ u = s +:+ (t +:+ u).
Proof. induction s as [|a s IH]; [done|]. app_simpl. f_equal. exact IH. Qed.

Lemma string_length_app (s t : string) :
  String.length (s +:+ t) = (String.length s + String.length t)%nat.
Proof. induction s as [|a s IH]; [done|]. app_simpl. cbn. f_equal. exact IH. Qed.

Lemma all_digits_app s t :
  all_digits s = true → all_digits t = true → all_digits (s +:+ t) = true.
Proof.
  induction s as [|a s IH]; [done|]. app_simpl. cbn.
  intros [Ha Hs]%andb_true_iff Ht. by rewrite Ha, IH.
Qed.

Lemma digit_pretty_N_char d :
  (d < 10)%N → digit (pretty_N_char d) = Some (Z.of_N d).
Proof.
  intros Hd.
  assert (d = 0 ∨ d = 1 ∨ d = 2 ∨ d = 3 ∨ d = 4 ∨ d = 5 ∨ d = 6 ∨ d = 7
          ∨ d = 8 ∨ d = 9)%N as Hin by lia.
  destruct Hin as [->|[->|[->|[->|[->|[->|[->|[->|[->| ->]]]]]]]]];
    vm_compute; reflexivity.
Qed.

(** The digits of a number spell it. *)
Lemma pretty_N_go_spec x s :
  ∃ p k, pretty_N_go x s = p +:+ s ∧ all_digits p = true
         ∧ ((0 < x)%N → p ≠ "")
         ∧ ∀ acc rest, digits_value 10 digit acc (p +:+ rest)
                       = digits_value 10 digit (acc * k + Z.of_N x) rest.
Proof.
  revert s. induction (N.lt_wf_0 x) as [x _ IH]. intros s.
  destruct (decide (x = 0%N)) as [->|Hx].
  { exists "", 1. rewrite pretty_N_go_0. split_and!; [done..|lia|].
    intros acc rest. app_simpl. f_equal. lia. }
  rewrite pretty_N_go_step by lia.
  destruct (IH (x `div` 10)%N ltac:(apply N.div_lt; lia)
              (String (pretty_N_char (x `mod` 10)) s)) as (p & k & Hgo & Hp & _ & Hval).
  pose proof (digit_pretty_N_char (x `mod` 10)%N ltac:(apply N.mod_lt; lia)) as Hd.
  exists (p +:+ String (pretty_N_char (x `mod` 10)) ""), (k * 10).
  split_and!.
  - by rewrite Hgo, string_app_assoc.
  - apply all_digits_app; [done|]. cbn. rewrite Hd. done.
  - intros _. by destruct p.
  - intros acc rest. rewrite string_app_assoc. app_simpl.
    rewrite Hval. cbn [digits_value]. rewrite Hd. f_equal.
    pose proof (N.div_mod x 10 ltac:(lia)). lia.
Qed.

Lemma toString_nonneg n :
  0 ≤ n →
  ∃ p k, toString n = p ∧ all_digits p = true ∧ p ≠ ""
         ∧ ∀ acc rest, digits_value 10 digit acc (p +:+ rest)
                       = digits_value 10 digit (acc * k + n) rest.
Proof.
  intros Hn. destruct n as [|q|q]; [| |lia].
  - exists "0", 10. split_and!; [done..|]. intros acc rest. app_simpl. cbn.
    f_equal.
  - destruct (pretty_N_go_spec (N.pos q) "") as (p & k & Hgo & Hp & Hne & Hval).
    exists p, k. rewrite string_app_nil_r in Hgo.
    split_and!; [done|done|by apply Hne|].
    intros acc rest. by rewrite Hval.
Qed.

Lemma pad_app count c s t : pad count c s +:+ t = pad count c (s +:+ t).
Proof. induction count as [|count IH]; [done|]. cbn. app_simpl. by rewrite IH. Qed.

Lemma digits_value_pad count s :
  digits_value 10 digit 0 (pad count "0" s) = digits_value 10 digit 0 s.
Proof. induction count as [|count IH]; [done|]. cbn. exact IH. Qed.

(** Reading back the two digits, or more, of a number that is not negative. *)
Lemma digits_value_padStart n rest :
  0 ≤ n →
  digits_value 10 digit 0 (padStart 2 "0" (toString n) +:+ String ":" rest) = n
  ∧ digits_value 10 digit 0 (padStart 2 "0" (toString n)) = n.
Proof.
  intros Hn. destruct (toString_nonneg n Hn) as (p & k & -> & _ & _ & Hval).
  unfold padStart. split.
  - rewrite pad_app, digits_value_pad, Hval. cbn [digits_value].
    change (digit ":") with (@None Z). cbv iota. lia.
  - rewrite <- (string_app_nil_r p) at 2. rewrite digits_value_pad, Hval. cbn. lia.
Qed.

Lemma two_characters n :
  0 ≤ n < 100 → String.length (padStart 2 "0" (toString n)) = 2%nat.
Proof.
  intros Hn.
  assert (Forall (λ n, String.length (padStart 2 "0" (toString n)) = 2%nat)
            (seqZ 0 100)) as Hall.
  { apply (bool_decide_unpack _). vm_compute. exact I. }
  rewrite Forall_forall in Hall. apply Hall, elem_of_seqZ. lia.
Qed.

(** X18.  [formatTime] shows different times differently, as long as they
    are not negative and within the integers that JavaScript numbers hold
    exactly; and up to a hundred minutes what it shows has the five
    characters of [mm:ss]. *)
Theorem formatTime_tells_times_apart (a b : Z) :
  0 ≤ a ≤ MAX_SAFE_INTEGER → 0 ≤ b ≤ MAX_SAFE_INTEGER →
  (formatTime a = formatTime b → a = b)
  ∧ (a < 6000 → String.length (formatTime a) = 5%nat).
Proof.
  intros [Ha _] [Hb _].
  assert (∀ t, 0 ≤ t → 0 ≤ t / 60 ∧ 0 ≤ Z.rem t 60 < 60
                       ∧ t = 60 * (t / 60) + Z.rem t 60) as Hparts.
  { intros t Ht. rewrite Z.rem_mod_nonneg by lia.
    pose proof (Z.mod_pos_bound t 60 ltac:(lia)).
    pose proof (Z.div_mod t 60 ltac:(lia)).
    pose proof (Z.div_pos t 60 Ht ltac:(lia)). lia. }
  destruct (Hparts a Ha) as (Hqa & Hra & Hda).
  destruct (Hparts b Hb) as (Hqb & Hrb & Hdb).
  split.
  - unfold formatTime. cbn zeta. app_simpl. intros Heq.
    assert (a / 60 = b / 60) as Hq.
    { rewrite <- (proj1 (digits_value_padStart (a / 60)
                           (padStart 2 "0" (toString (Z.rem a 60))) Hqa)).
      rewrite <- (proj1 (digits_value_padStart (b / 60)
                           (padStart 2 "0" (toString (Z.rem b 60))) Hqb)).
      by f_equal. }
    rewrite Hq in Heq. apply (inj (String.app _)) in Heq.
    injection Heq as Heq.
    assert (Z.rem a 60 = Z.rem b 60) as Hr.
    { rewrite <- (proj2 (digits_value_padStart (Z.rem a 60) "" (proj1 Hra))).
      rewrite <- (proj2 (digits_value_padStart (Z.rem b 60) "" (proj1 Hrb))).
      by f_equal. }
    lia.
  - intros Hlt. unfold formatTime. cbn zeta. app_simpl.
    rewrite string_length_app. cbn [String.length].
    rewrite (two_characters (a / 60)), (two_characters (Z.rem a 60)); [done|lia|].
    split; [done|]. apply Z.div_lt_upper_bound; lia.
Qed.

Lemma formatTime_tells_times_apart_witness :
  (formatTime 1503 = formatTime 1503 → 1503 = 1503)
  ∧ (1503 < 6000 → String.length (formatTime 1503) = 5%nat).
Proof.
  apply (formatTime_tells_times_apart 1503 1503);
    (split; [lia | vm_compute; discriminate]).
Defined.

(** ** The duration field *)

Lemma digit_cases a :
  is_Some (digit a) →
  (a = "0" ∨ a = "1" ∨ a = "2" ∨ a = "3" ∨ a = "4" ∨ a = "5" ∨ a = "6"
   ∨ a = "7" ∨ a = "8" ∨ a = "9")%char.
Proof.
  intros [v Hv].
  destruct a as [[] [] [] [] [] [] [] []]; vm_compute in Hv;
    try discriminate Hv; auto 12.
Qed.

Ltac digit_cases H :=
  destruct (digit_cases _ H) as [->|[->|[->|[->|[->|[->|[->|[->|[->| ->]]]]]]]]].

Lemma all_digits_cons a s :
  all_digits (String a s) = true → is_Some (digit a) ∧ all_digits s = true.
Proof. cbn. intros [Ha Hs]%andb_true_iff. by apply bool_decide_eq_true in Ha. Qed.

Lemma beforeColon_digits p rest :
  all_digits p = true → beforeColon (p +:+ String ":" rest) = p.
Proof.
  induction p as [|a p IH].
  - intros _. app_simpl. reflexivity.
  - intros [Ha Hp]%all_digits_cons. app_simpl. cbn [beforeColon].
    rewrite bool_decide_eq_false_2, IH; [done..|].
    intros ->. destruct Ha as [v Hv]. vm_compute in Hv. discriminate Hv.
Qed.

Lemma is_space_digit a : is_Some (digit a) → is_space a = false.
Proof. intros Ha. digit_cases Ha; vm_compute; reflexivity. Qed.

(** [parseInt] reads a number in decimal digits, with or without a minus
    sign, as that number. *)
Lemma parseInt_digits p :
  all_digits p = true → p ≠ "" →
  parseInt p = Some (digits_value 10 digit 0 p)
  ∧ parseInt (String "-" p) = Some (- digits_value 10 digit 0 p).
Proof.
  intros Hp Hne. destruct p as [|a1 p]; [done|].
  apply all_digits_cons in Hp as [Ha1 Hp].
  assert (∀ z, -1 * z = - z) as Hneg by (intros; lia).
  assert (∀ z, 1 * z = z) as Hpos by (intros; lia).
  assert (is_space "-" = false) as Hminus by (vm_compute; reflexivity).
  pose proof (is_space_digit a1 Ha1) as Hspace.
  assert (trimStart (String a1 p) = String a1 p
          ∧ trimStart (String "-" (String a1 p)) = String "-" (String a1 p))
    as [Htrim Htrim'].
  { cbn [trimStart]. by rewrite Hminus, Hspace. }
  unfold parseInt. rewrite Htrim, Htrim'. clear Htrim Htrim' Hspace Hminus.
  digit_cases Ha1;
    try (split; cbn -[Z.mul digits_value digit]; destruct Ha1 as [v1 Hv1];
         by rewrite Hv1, ?Hneg, ?Hpos).
  destruct p as [|a2 p].
  { split; cbn -[Z.mul digits_value digit]; destruct Ha1 as [v1 Hv1];
      by rewrite Hv1, ?Hneg, ?Hpos. }
  apply all_digits_cons in Hp as [Ha2 Hp].
  digit_cases Ha2; split; cbn -[Z.mul digits_value digit];
    destruct Ha1 as [v1 Hv1]; by rewrite Hv1, ?Hneg, ?Hpos.
Qed.

Lemma toString_spec n :
  ∃ p, all_digits p = true ∧ p ≠ "" ∧ digits_value 10 digit 0 p = Z.abs n
       ∧ toString n = if bool_decide (n < 0) then String "-" p else p.
Proof.
  assert (∀ m, 0 ≤ m →
    ∃ p, all_digits p = true ∧ p ≠ "" ∧ digits_value 10 digit 0 p = m
         ∧ toString m = p) as Hnonneg.
  { intros m Hm. destruct (toString_nonneg m Hm) as (p & k & Hs & Hp & Hne & Hval).
    exists p. split_and!; [done..| |done].
    rewrite <- (string_app_nil_r p), Hval. cbn. lia. }
  destruct (decide (n < 0)) as [Hn|Hn].
  - destruct (Hnonneg (- n) ltac:(lia)) as (p & Hp & Hne & Hval & Hs).
    exists p. rewrite bool_decide_eq_true_2 by done.
    split_and!; [done|done|lia|]. rewrite <- Hs. by destruct n.
  - destruct (Hnonneg n ltac:(lia)) as (p & Hp & Hne & Hval & Hs).
    exists p. rewrite bool_decide_eq_false_2 by done.
    split_and!; [done|done|lia|done].
Qed.

Lemma parseInt_durationField minutes :
  parseInt (beforeColon (durationField minutes)) = Some minutes.
Proof.
  unfold durationField.
  destruct (toString_spec minutes) as (p & Hp & Hne & Hval & ->).
  destruct (parseInt_digits p Hp Hne) as [Hplus Hminus].
  case_bool_decide as Hn; app_simpl.
  - cbn [beforeColon]. rewrite bool_decide_eq_false_2 by done.
    rewrite beforeColon_digits, Hminus by done. f_equal. lia.
  - rewrite beforeColon_digits, Hplus by done. f_equal. lia.
Qed.

(** X19.  The duration field reads back what it shows: while idle, a change
    event of the field whose text is the text it displays, the selected
    minutes and [:00], leaves the page as it is, unless the selected duration
    is zero.  The minutes are within the integers that JavaScript numbers
    hold exactly. *)
Theorem duration_field_round_trip (w : World) (minutes : Z) :
  status w = Idle →
  selectedDuration w = minutes * 60 →
  minutes ≠ 0 →
  Z.abs (selectedDuration w) ≤ MAX_SAFE_INTEGER →
  step (typeDuration (durationField minutes)) w = Some w.
Proof.
  intros Hidle Hsel Hnz _. unfold step, typeDuration.
  rewrite parseInt_durationField.
  assert (handle (TypeDuration (Some minutes)) w = w) as Hh.
  { cbn [handle]. unfold num_or. rewrite bool_decide_eq_false_2 by done.
    rewrite <- Hsel. by destruct w. }
  cbn [enabled]. rewrite bool_decide_eq_true_2 by done.
  f_equal. rewrite fire_quiet; rewrite Hh; done.
Qed.

Lemma duration_field_round_trip_witness :
  let w := after signed_in 0 in
  step (typeDuration (durationField 20)) w = Some w.
Proof.
  intros w. apply (duration_field_round_trip w 20);
    [vm_compute; reflexivity | vm_compute; reflexivity | lia
    | vm_compute; discriminate].
Defined.

(** ** The first revision *)

Lemma first_revision_tick_false r :
  0 ≤ r → first_revision_tick false (Some r) = Some (Z.max 0 (r - 1)).
Proof.
  intros Hr. unfold first_revision_tick, countdown_updater.
  rewrite orb_false_r.
  destruct (Z.leb_spec r 0), (Z.leb_spec r 1); f_equal; lia.
Qed.

(** X20.  In the first revision, where the interval counts the seconds
    itself, [n] seconds take a countdown at [r] to [r - n], or to zero if
    that is less, where it stays; and while paused it keeps its value. *)
Theorem first_revision_counts_down (r : Z) (n : nat) :
  0 ≤ r →
  Nat.iter n (first_revision_tick false) (Some r) = Some (Z.max 0 (r - Z.of_nat n))
  ∧ Nat.iter n (first_revision_tick true) (Some r) = Some r.
Proof.
  intros Hr. induction n as [|n [IHrun IHpaused]].
  - split; cbn; f_equal; lia.
  - split; rewrite Nat.iter_succ.
    + rewrite IHrun, first_revision_tick_false by lia. f_equal. lia.
    + rewrite IHpaused. unfold first_revision_tick. by rewrite orb_true_r.
Qed.

Lemma first_revision_counts_down_witness :
  Nat.iter 5 (first_revision_tick false) (Some 3) = Some (Z.max 0 (3 - Z.of_nat 5))
  ∧ Nat.iter 5 (first_revision_tick true) (Some 3) = Some 3.
Proof. apply (first_revision_counts_down 3 5). lia. Defined.
